(** * gestao_produtos: the product catalogue, its records and its collection

    A shallow embedding of [gestao_produtos.py] (the revision that has
    [Produto.string], [ProductCollection.eliminar] and
    [ProductCollection.grava]) and the properties of its catalogue model.

    Conventions of the embedding:
    - a Python [str] is a [list ascii], each [ascii] being one character by
      its code point: the texts of the embedding are those of the code
      points 0 to 255 (ASCII and the Latin-1 supplement), and [split],
      [strip], [int], [str] and [Decimal] are what Python computes on such
      texts, for every one of the 256 characters; [upper], whose result can
      leave this range, is modelled on ASCII and related to Python's by
      [upper_full];
    - a Python [int] is a [Z]; [int(s)] and [str(n)] have no digit limit;
    - a [decimal.Decimal] is its sign, coefficient and exponent (or a
      special value), read and printed as the [decimal] module does under
      the default context, with the unbounded exponent of its arithmetic
      (CPython's C implementation refuses exponents beyond 18 digits);
    - a raised exception is the [Raise] outcome of a [result];
    - a method of [ProductCollection] takes the object's state and returns
      its outcome together with the state it leaves. *)

From Stdlib Require Import String Ascii ZArith NArith List Bool Lia.
Import ListNotations.

Local Open Scope Z_scope.

(** ** Python text *)

Definition str := list ascii.

Definition lit (s : string) : str := list_ascii_of_string s.

Definition code (c : ascii) : N := N_of_ascii c.

(** The characters that [str.strip] removes, those of [str.isspace]: tab to
    carriage return (9 to 13), the four separators U+001C to U+001F, the
    blank, NEXT LINE (U+0085) and NO-BREAK SPACE (U+00A0). *)
Definition is_space (c : ascii) : bool :=
  let n := code c in
  (((9 <=? n) && (n <=? 13)) || ((28 <=? n) && (n <=? 32))
   || (n =? 133) || (n =? 160))%N.

(** The whitespace that [int] skips around a number: that of [strip] but
    for the four separators U+001C to U+001F, which [int] does not skip. *)
Definition is_int_space (c : ascii) : bool :=
  let n := code c in
  (((9 <=? n) && (n <=? 13)) || (n =? 32) || (n =? 133) || (n =? 160))%N.

Definition is_digit (c : ascii) : bool :=
  let n := code c in ((48 <=? n) && (n <=? 57))%N.

Definition digit_val (c : ascii) : N := (code c - 48)%N.

Definition digit_char (d : N) : ascii := ascii_of_N (48 + d).

Definition comma : ascii := ","%char.
Definition underscore : ascii := "_"%char.
Definition newline : ascii := "010"%char.

(** The text from its first character that is not of the class [sp]. *)
Fixpoint drop_while (sp : ascii -> bool) (s : str) : str :=
  match s with
  | c :: s' => if sp c then drop_while sp s' else s
  | [] => []
  end.

(** The text without the characters of the class [sp] at its two ends. *)
Definition strip_of (sp : ascii -> bool) (s : str) : str :=
  rev (drop_while sp (rev (drop_while sp s))).

(** [s.strip()] *)
Definition strip (s : str) : str := strip_of is_space s.

Definition upper_char (c : ascii) : ascii :=
  let n := code c in
  if ((97 <=? n) && (n <=? 122))%N then ascii_of_N (n - 32) else c.

(** [s.upper()], as it is on ASCII texts. The program calls it on the type
    code only, to look the result up in [PRODUCT_TYPES]: a text with a
    character beyond ASCII has, in Python, a capital form that still holds a
    character beyond ASCII or the letters [SS] (for U+00DF), which is no key
    of the table any more than the text this function returns. *)
Definition upper (s : str) : str := map upper_char s.

(** The capital form that Python gives each character, as code points, two
    of which lie beyond 255: the letters [a] to [z] and U+00E0 to U+00FE
    (but the division sign U+00F7) lose 32, U+00B5 becomes U+039C, U+00DF
    the two letters [SS], and U+00FF becomes U+0178. *)
Definition upper_points (c : ascii) : list N :=
  let n := code c in
  if ((97 <=? n) && (n <=? 122))%N then [n - 32]%N
  else if (n =? 181)%N then [924%N]
  else if (n =? 223)%N then [83%N; 83%N]
  else if ((224 <=? n) && (n <=? 254) && negb (n =? 247))%N then [n - 32]%N
  else if (n =? 255)%N then [376%N]
  else [n].

(** [s.upper()] in full, as code points; [upper] stands for it where the
    program looks at it, see [RecordFacts.type_known_upper_full]. *)
Definition upper_full (s : str) : list N := flat_map upper_points s.

Definition lower_char (c : ascii) : ascii :=
  let n := code c in
  if ((65 <=? n) && (n <=? 90))%N then ascii_of_N (n + 32) else c.

Definition lower (s : str) : str := map lower_char s.

(** [s.split(d)]: never empty, one field more than there are delimiters. *)
Fixpoint split (d : ascii) (s : str) : list str :=
  match s with
  | [] => [[]]
  | c :: s' =>
      if Ascii.eqb c d then [] :: split d s'
      else match split d s' with
           | f :: fs => (c :: f) :: fs
           | [] => [[c]]
           end
  end.

(** [a == b] on texts *)
Fixpoint str_eqb (a b : str) : bool :=
  match a, b with
  | [], [] => true
  | c :: a', d :: b' => Ascii.eqb c d && str_eqb a' b'
  | _, _ => false
  end.

(** A character that can stand in a printed number or in a type code: no
    whitespace, no underscore, no field delimiter. *)
Definition plain (c : ascii) : Prop :=
  is_space c = false /\ Ascii.eqb c underscore = false /\
  Ascii.eqb c comma = false.

(** A text without the field delimiter. *)
Definition no_comma (s : str) : Prop :=
  Forall (fun c => Ascii.eqb c comma = false) s.

(** ** Python integers as text *)

(** The decimal digits of [n], most significant first; [fuel] bounds the
    number of digits produced. *)
Fixpoint digits_fuel (fuel : nat) (n : N) (acc : str) : str :=
  match fuel with
  | O => acc
  | S f =>
      let acc' := digit_char (n mod 10) :: acc in
      if (n <? 10)%N then acc' else digits_fuel f (n / 10) acc'
  end.

Definition str_of_N (n : N) : str :=
  digits_fuel (S (N.to_nat (N.log2 n))) n [].

(** Fuel [f] suffices for the digits of [n]. *)
Definition enough (f : nat) (n : N) : Prop :=
  (N.to_nat (N.log2 n) < f)%nat.

(** [str(n)] for an [int] *)
Definition str_of_int (z : Z) : str :=
  if z <? 0 then "-"%char :: str_of_N (Z.abs_N z) else str_of_N (Z.abs_N z).

(** The value of a run of digits, read left to right. *)
Fixpoint digits_value (s : str) (acc : N) : N :=
  match s with
  | [] => acc
  | c :: s' => digits_value s' (10 * acc + digit_val c)
  end.

(** An optional sign in front of a number. *)
Definition parse_sign (s : str) : bool * str :=
  match s with
  | "-"%char :: r => (true, r)
  | "+"%char :: r => (false, r)
  | _ => (false, s)
  end.

(** The body of an integer literal: digits, with single underscores allowed
    between two digits. [prev] tells whether the previous character was a
    digit. *)
Fixpoint int_body (s : str) (acc : N) (prev : bool) : option N :=
  match s with
  | [] => if prev then Some acc else None
  | c :: s' =>
      if is_digit c then int_body s' (10 * acc + digit_val c)%N true
      else if Ascii.eqb c underscore && prev then int_body s' acc false
      else None
  end.

(** [int(s)]: surrounding whitespace, an optional sign, the digits.
    [None] stands for the [ValueError] that [int] raises. *)
Definition int_of_str (s : str) : option Z :=
  let (sg, b) := parse_sign (strip_of is_int_space s) in
  option_map (fun n => if (sg : bool) then - Z.of_N n else Z.of_N n)
    (int_body b 0%N false).

(** ** [decimal.Decimal] *)

(** A decimal is a finite number [(-1)^sign * coef * 10^exp], an infinity or
    a NaN (quiet or signalling, with its diagnostic digits). *)
Inductive dec : Type :=
| Finite (sign : bool) (coef : N) (exp : Z)
| Infinity (sign : bool)
| NaN (sign : bool) (signal : bool) (diag : N).

Definition zeros (n : nat) : str := repeat "0"%char n.

Definition sign_str (s : bool) : str := if s then ["-"%char] else [].

(** The ["E%+d"] suffix of the scientific form. *)
Definition exp_str (e : Z) : str :=
  "E"%char :: (if e <? 0 then "-"%char else "+"%char) :: str_of_N (Z.abs_N e).

(** The exponent part of a printed decimal: empty for exponent 0. *)
Definition exp_part (e : Z) : str := if e =? 0 then [] else exp_str e.

(** [str(d)]: the scientific string of the decimal arithmetic
    specification. *)
Definition str_of_dec (d : dec) : str :=
  match d with
  | Infinity s => sign_str s ++ lit "Infinity"
  | NaN s sig diag =>
      sign_str s ++ (if sig then lit "sNaN" else lit "NaN")
      ++ (if (diag =? 0)%N then [] else str_of_N diag)
  | Finite s c e =>
      let ds := str_of_N c in
      let n := Z.of_nat (length ds) in
      let leftdigits := e + n in
      let dotplace :=
        if (e <=? 0) && (-6 <? leftdigits) then leftdigits else 1 in
      let intpart :=
        if dotplace <=? 0 then ["0"%char]
        else if n <=? dotplace then ds ++ zeros (Z.to_nat (dotplace - n))
        else firstn (Z.to_nat dotplace) ds in
      let fracpart :=
        if dotplace <=? 0 then "."%char :: zeros (Z.to_nat (- dotplace)) ++ ds
        else if n <=? dotplace then []
        else "."%char :: skipn (Z.to_nat dotplace) ds in
      let exp :=
        if leftdigits =? dotplace then [] else exp_str (leftdigits - dotplace) in
      sign_str s ++ intpart ++ fracpart ++ exp
  end.

(** The longest prefix of digits, and what follows it. *)
Fixpoint span_digits (s : str) : str * str :=
  match s with
  | c :: s' =>
      if is_digit c then let (d, r) := span_digits s' in (c :: d, r)
      else ([], s)
  | [] => ([], [])
  end.

Definition remove_underscores (s : str) : str :=
  filter (fun c => negb (Ascii.eqb c underscore)) s.

(** The exponent after the [E]: an optional sign and at least one digit, up
    to the end of the text. *)
Definition parse_exp (s : str) : option Z :=
  let (sg, r) := parse_sign s in
  let (ds, rest) := span_digits r in
  match ds, rest with
  | _ :: _, [] =>
      Some (if sg then - Z.of_N (digits_value ds 0) else Z.of_N (digits_value ds 0))
  | _, _ => None
  end.

(** What may follow the digits of a number: nothing (exponent 0) or an [E],
    in either case, and an exponent. *)
Definition parse_exp_opt (s : str) : option Z :=
  match s with
  | [] => Some 0
  | c :: r =>
      if Ascii.eqb (upper_char c) "E"%char then parse_exp r else None
  end.

(** A number: digits, an optional fraction, an optional exponent, with at
    least one digit before the exponent. *)
Definition parse_number (sg : bool) (s : str) : option dec :=
  let (ip, r1) := span_digits s in
  let (fp, r2) :=
    match r1 with
    | "."%char :: r => span_digits r
    | _ => ([], r1)
    end in
  match ip ++ fp with
  | [] => None
  | _ :: _ =>
      match parse_exp_opt r2 with
      | Some e =>
          Some (Finite sg (digits_value (ip ++ fp) 0) (e - Z.of_nat (length fp)))
      | None => None
      end
  end.

Definition parse_nan (sg sig : bool) (d : str) : option dec :=
  let (ds, rest) := span_digits d in
  match rest with
  | [] => Some (NaN sg sig (digits_value ds 0))
  | _ :: _ => None
  end.

(** An infinity or a NaN, in any letter case. *)
Definition parse_special (sg : bool) (s : str) : option dec :=
  let l := lower s in
  if str_eqb l (lit "inf") || str_eqb l (lit "infinity") then Some (Infinity sg)
  else match l with
       | "n"%char :: "a"%char :: "n"%char :: d => parse_nan sg false d
       | "s"%char :: "n"%char :: "a"%char :: "n"%char :: d => parse_nan sg true d
       | _ => None
       end.

(** [Decimal(s)]: whitespace stripped, underscores removed, then the
    numeric-string syntax. [None] stands for the [decimal.InvalidOperation]
    that a malformed literal raises. *)
Definition dec_of_str (s : str) : option dec :=
  let (sg, b) := parse_sign (remove_underscores (strip s)) in
  match parse_number sg b with
  | Some d => Some d
  | None => parse_special sg b
  end.

(** The comparison of a decimal with the integer [0]; [None] stands for the
    [decimal.InvalidOperation] that an ordering against a NaN raises. *)
Definition dec_cmp_zero (d : dec) : option comparison :=
  match d with
  | NaN _ _ _ => None
  | Infinity s => Some (if s then Lt else Gt)
  | Finite s c _ => Some (if (c =? 0)%N then Eq else if s then Lt else Gt)
  end.

(** ** Exceptions *)

(** The attribute an [InvalidProdAttribute] complains about (its message). *)
Inductive attribute : Type :=
| attr_id | attr_nome | attr_tipo | attr_quantidade | attr_preco.

Inductive exn : Type :=
| InvalidProdAttribute (a : attribute)
| ValueError
| IndexError
| KeyError
| DecimalInvalidOperation
| DuplicateValue (key : Z)
| FileNotFound (key : Z).

(** The exception classes the program defines or meets, and their bases.
    [InvalidOperation] is the module's own class, not the [decimal] one. *)
Inductive pyclass : Type :=
| cls_Exception
| cls_ValueError | cls_LookupError | cls_IndexError | cls_KeyError
| cls_ArithmeticError | cls_DecimalInvalidOperation
| cls_InvalidProdAttribute | cls_DuplicateValue
| cls_InvalidOperation | cls_FileNotFound.

Definition base (c : pyclass) : option pyclass :=
  match c with
  | cls_Exception => None
  | cls_ValueError => Some cls_Exception
  | cls_LookupError => Some cls_Exception
  | cls_IndexError => Some cls_LookupError
  | cls_KeyError => Some cls_LookupError
  | cls_ArithmeticError => Some cls_Exception
  | cls_DecimalInvalidOperation => Some cls_ArithmeticError
  | cls_InvalidProdAttribute => Some cls_ValueError
  | cls_DuplicateValue => Some cls_Exception
  | cls_InvalidOperation => Some cls_Exception
  | cls_FileNotFound => Some cls_Exception
  end.

Definition pyclass_eqb (a b : pyclass) : bool :=
  match a, b with
  | cls_Exception, cls_Exception
  | cls_ValueError, cls_ValueError
  | cls_LookupError, cls_LookupError
  | cls_IndexError, cls_IndexError
  | cls_KeyError, cls_KeyError
  | cls_ArithmeticError, cls_ArithmeticError
  | cls_DecimalInvalidOperation, cls_DecimalInvalidOperation
  | cls_InvalidProdAttribute, cls_InvalidProdAttribute
  | cls_DuplicateValue, cls_DuplicateValue
  | cls_InvalidOperation, cls_InvalidOperation
  | cls_FileNotFound, cls_FileNotFound => true
  | _, _ => false
  end.

Fixpoint issubclass_fuel (fuel : nat) (c d : pyclass) : bool :=
  pyclass_eqb c d ||
  match fuel, base c with
  | S f, Some b => issubclass_fuel f b d
  | _, _ => false
  end.

(** [issubclass(c, d)]; no chain of bases is longer than three. *)
Definition issubclass (c d : pyclass) : bool := issubclass_fuel 3 c d.

Definition class_of (e : exn) : pyclass :=
  match e with
  | InvalidProdAttribute _ => cls_InvalidProdAttribute
  | ValueError => cls_ValueError
  | IndexError => cls_IndexError
  | KeyError => cls_KeyError
  | DecimalInvalidOperation => cls_DecimalInvalidOperation
  | DuplicateValue _ => cls_DuplicateValue
  | FileNotFound _ => cls_FileNotFound
  end.

(** Would [except c] catch [e]? *)
Definition caught_by (e : exn) (c : pyclass) : bool := issubclass (class_of e) c.

Inductive result (A : Type) : Type :=
| Ok (a : A)
| Raise (e : exn).

Arguments Ok {A} a.
Arguments Raise {A} e.

Definition bind {A B : Type} (r : result A) (k : A -> result B) : result B :=
  match r with
  | Ok a => k a
  | Raise e => Raise e
  end.

Notation "x <- r ;; k" := (bind r (fun x => k))
  (at level 61, r at next level, right associativity).

Definition of_option {A : Type} (e : exn) (o : option A) : result A :=
  match o with
  | Some a => Ok a
  | None => Raise e
  end.

(** [int(s)], [Decimal(s)] and [l[i]] with the exceptions they raise. *)
Definition py_int (s : str) : result Z := of_option ValueError (int_of_str s).
Definition py_dec (s : str) : result dec := of_option DecimalInvalidOperation (dec_of_str s).
Definition getitem (l : list str) (i : nat) : result str :=
  of_option IndexError (nth_error l i).

(** [d < 0] *)
Definition dec_lt_zero (d : dec) : result bool :=
  c <- of_option DecimalInvalidOperation (dec_cmp_zero d) ;;
  Ok (match c with Lt => true | _ => false end).

(** [d >= 0] holds (and does not raise). *)
Definition dec_ge_zero (d : dec) : Prop :=
  dec_cmp_zero d = Some Eq \/ dec_cmp_zero d = Some Gt.

(** ** Dictionaries

    A Python [dict] keeps its keys unique and in insertion order: an
    association list, updated in place or extended at the end. *)

Section Dict.
Context {V : Type}.

Definition dict := list (Z * V).

(** [k in d] *)
Definition dict_mem (k : Z) (d : dict) : bool :=
  existsb (fun kv => fst kv =? k) d.

(** [d.get(k)] *)
Fixpoint dict_get (k : Z) (d : dict) : option V :=
  match d with
  | [] => None
  | (k', v) :: d' => if k' =? k then Some v else dict_get k d'
  end.

(** [d[k] = v] *)
Fixpoint dict_set (k : Z) (v : V) (d : dict) : dict :=
  match d with
  | [] => [(k, v)]
  | (k', v') :: d' =>
      if k' =? k then (k', v) :: d' else (k', v') :: dict_set k v d'
  end.

(** [del d[k]], for a key that is present *)
Fixpoint dict_del (k : Z) (d : dict) : dict :=
  match d with
  | [] => []
  | (k', v') :: d' => if k' =? k then d' else (k', v') :: dict_del k d'
  end.

(** [d.values()] and the keys, in order *)
Definition dict_values (d : dict) : list V := map snd d.
Definition dict_keys (d : dict) : list Z := map fst d.
End Dict.

Arguments dict V : clear implicits.

(** ** The catalogue's table of product types *)

(** The two letters of the names that lie beyond ASCII, U+00E7 and
    U+00E3. *)
Definition c_cedilha : ascii := "231"%char.
Definition a_til : ascii := "227"%char.

Definition PRODUCT_TYPES : list (str * str) :=
  [ (lit "AL", lit "Alimenta" ++ c_cedilha :: a_til :: lit "o");
    (lit "DL", lit "Detergente p/ Loi" ++ c_cedilha :: lit "a");
    (lit "FRL", lit "Frutas e Legumes") ].

(** [k in PRODUCT_TYPES] and [PRODUCT_TYPES[k]] *)
Definition type_known (k : str) : bool :=
  existsb (fun kv => str_eqb (fst kv) k) PRODUCT_TYPES.

Definition type_name (k : str) : result str :=
  of_option KeyError
    (option_map snd (find (fun kv => str_eqb (fst kv) k) PRODUCT_TYPES)).

(** ** class Produto *)

Module Produto.

Record t : Type := mk {
  id : Z;
  nome : str;
  tipo : str;
  quantidade : Z;
  preco : dec
}.

(** [Produto.__init__]: the checks in the order of the source, the first
    that fails raising. *)
Definition init (id_ : Z) (nome tipo : str) (quantidade : Z) (preco : dec)
  : result t :=
  if (id_ <? 0) || negb (Nat.eqb (length (str_of_int id_)) 5) then
    Raise (InvalidProdAttribute attr_id)
  else if match nome with [] => true | _ :: _ => false end then
    Raise (InvalidProdAttribute attr_nome)
  else if negb (type_known (upper tipo)) then
    Raise (InvalidProdAttribute attr_tipo)
  else if quantidade <? 0 then
    Raise (InvalidProdAttribute attr_quantidade)
  else
    neg <- dec_lt_zero preco ;;
    if (neg : bool) then Raise (InvalidProdAttribute attr_preco)
    else Ok (mk id_ nome (upper tipo) quantidade preco).

(** [Produto.from_csv]: the arguments are evaluated left to right, then
    the constructor runs. *)
Definition from_csv (txt_csv : str) : result t :=
  let attrs := split comma txt_csv in
  a0 <- getitem attrs 0 ;;
  id_ <- py_int a0 ;;
  a1 <- getitem attrs 1 ;;
  let nome := strip a1 in
  a2 <- getitem attrs 2 ;;
  let tipo := strip a2 in
  a3 <- getitem attrs 3 ;;
  quantidade <- py_int a3 ;;
  a4 <- getitem attrs 4 ;;
  preco <- py_dec a4 ;;
  init id_ nome tipo quantidade preco.

(** [Produto.string] *)
Definition string (self : t) : str :=
  str_of_int (id self) ++ comma :: nome self ++ comma :: tipo self
  ++ comma :: str_of_int (quantidade self) ++ comma :: str_of_dec (preco self).

(** [Produto.nome_tipo] *)
Definition nome_tipo (self : t) : result str := type_name (tipo self).

End Produto.

(** ** class ProductCollection *)

Module ProductCollection.

(** The object's two attributes: the dictionary [_prods] and the text
    [list] that [grava] accumulates. *)
Record t : Type := mk {
  _prods : dict Produto.t;
  list_ : str
}.

(** A method: from the state of [self] to an outcome and the state left. *)
Definition method (A : Type) : Type := t -> result A * t.

(** [ProductCollection.__init__] *)
Definition init : t := mk [] [].

(** [ProductCollection.append] *)
Definition append (prod : Produto.t) : method unit := fun self =>
  if dict_mem (Produto.id prod) (_prods self) then
    (Raise (DuplicateValue (Produto.id prod)), self)
  else
    (Ok tt, mk (dict_set (Produto.id prod) prod (_prods self)) (list_ self)).

(** [ProductCollection.pesquisa_por_id]; [None] is Python's [None]. *)
Definition pesquisa_por_id (id_ : Z) (self : t) : option Produto.t :=
  dict_get id_ (_prods self).

(** The loop of [pesquisa] over the values, filling [encontrados]. *)
Fixpoint pesquisa_loop (criterio : Produto.t -> bool)
    (vals : list Produto.t) (encontrados : t) : result t :=
  match vals with
  | [] => Ok encontrados
  | prod :: rest =>
      if criterio prod then
        match append prod encontrados with
        | (Ok _, encontrados') => pesquisa_loop criterio rest encontrados'
        | (Raise e, _) => Raise e
        end
      else pesquisa_loop criterio rest encontrados
  end.

(** [ProductCollection.pesquisa] *)
Definition pesquisa (criterio : Produto.t -> bool) : method t := fun self =>
  (pesquisa_loop criterio (dict_values (_prods self)) init, self).

(** [ProductCollection.eliminar]: the argument, annotated [Produto] in the
    source, is the key itself, as the caller [exec_eliminar] passes it. *)
Definition eliminar (prod : Z) : method unit := fun self =>
  if negb (dict_mem prod (_prods self)) then
    (Raise (FileNotFound prod), self)
  else
    (Ok tt, mk (dict_del prod (_prods self)) (list_ self)).

(** The loop of [grava]: [self.list += prod.string() + "\n"]. *)
Fixpoint grava_loop (vals : list Produto.t) (list_ : str) : str :=
  match vals with
  | [] => list_
  | prod :: rest =>
      grava_loop rest (list_ ++ (Produto.string prod ++ [newline]))
  end.

(** [ProductCollection.grava] *)
Definition grava : method str := fun self =>
  let l := grava_loop (dict_values (_prods self)) (list_ self) in
  (Ok l, mk (_prods self) l).

(** [ProductCollection.__iter__] *)
Definition iter (self : t) : list Produto.t := dict_values (_prods self).

(** The collections a program can build with the public operations. *)
Inductive reachable : t -> Prop :=
| reach_init : reachable init
| reach_append prod c : reachable c -> reachable (snd (append prod c))
| reach_eliminar k c : reachable c -> reachable (snd (eliminar k c))
| reach_grava c : reachable c -> reachable (snd (grava c))
| reach_pesquisa criterio c c' :
    reachable c -> fst (pesquisa criterio c) = Ok c' -> reachable c'.

(** The ids of the members, in iteration order. *)
Definition ids (self : t) : list Z := map Produto.id (iter self).

(** Every member is stored under its own id, and keys are unique. *)
Definition well_keyed (self : t) : Prop :=
  NoDup (dict_keys (_prods self)) /\
  Forall (fun kv => fst kv = Produto.id (snd kv)) (_prods self).

End ProductCollection.

(** The text that [SerializeAll] is specified to return: each member's
    record followed by a line break, in iteration order. *)
Definition records_text (ps : list Produto.t) : str :=
  concat (map (fun p => Produto.string p ++ [newline]) ps).

(** ** The catalogue file

    [le_produtos] and [exec_guardar] meet the file through Python's text
    mode: written, each line break becomes the platform's line separator;
    read, each of [\n], [\r] and [\r\n] becomes one line break, and
    iterating over the file gives its lines, each with its line break. The
    content of a file is the text it decodes to. *)

Definition cr : ascii := "013"%char.
Definition hash : ascii := "#"%char.
Definition point : ascii := "."%char.
Definition blank : ascii := " "%char.

(** What [fich.write(t)] stores in a file opened with ['wt']. *)
Definition write_text (linesep : str) (t : str) : str :=
  flat_map (fun c => if Ascii.eqb c newline then linesep else [c]) t.

(** What reading a file opened with ['rt'] makes of its line breaks. *)
Fixpoint universal_newlines (s : str) : str :=
  match s with
  | [] => []
  | c :: r =>
      if Ascii.eqb c cr then
        newline ::
        match r with
        | d :: r' =>
            if Ascii.eqb d newline then universal_newlines r'
            else universal_newlines r
        | [] => []
        end
      else c :: universal_newlines r
  end.

(** The lines of a text, from its pieces between line breaks: every piece
    but the last is a line and keeps its line break, the last piece is a
    line when it is not empty. *)
Fixpoint keepends (pieces : list str) : list str :=
  match pieces with
  | [] => []
  | [f] => match f with [] => [] | _ :: _ => [f] end
  | f :: rest => (f ++ [newline]) :: keepends rest
  end.

(** [for linha in fich], for a file of the given content. *)
Definition file_lines (conteudo : str) : list str :=
  keepends (split newline (universal_newlines conteudo)).

(** [s[i]] on a text *)
Definition char_at (s : str) (i : nat) : result ascii :=
  of_option IndexError (nth_error s i).

(** A loop over a list of texts, its body working on a state: the loop ends
    at the first exception. *)
Fixpoint for_each {S : Type} (ls : list str)
    (corpo : str -> S -> result unit * S) (s : S) : result unit * S :=
  match ls with
  | [] => (Ok tt, s)
  | l :: rest =>
      match corpo l s with
      | (Ok _, s') => for_each rest corpo s'
      | (Raise e, s') => (Raise e, s')
      end
  end.

(** [linhas_relevantes], a generator: it runs interleaved with the loop
    that consumes it, [corpo] being the body of that loop, run at each
    [yield] on the state [s] of the consumer. *)
Fixpoint linhas_relevantes {S : Type} (fich : list str)
    (corpo : str -> S -> result unit * S) (s : S) : result unit * S :=
  match fich with
  | [] => (Ok tt, s)
  | linha :: resto =>
      match strip linha with
      | [] => linhas_relevantes resto corpo s
      | _ :: _ =>
          match char_at linha 0 with
          | Raise e => (Raise e, s)
          | Ok c =>
              if Ascii.eqb c hash then linhas_relevantes resto corpo s
              else
                match corpo linha s with
                | (Ok _, s') => linhas_relevantes resto corpo s'
                | (Raise e, s') => (Raise e, s')
                end
          end
      end
  end.

(** The lines that [linhas_relevantes] is meant to pass on: not blank, not
    starting with [#]. *)
Definition relevante (linha : str) : bool :=
  match strip linha with
  | [] => false
  | _ :: _ =>
      match linha with
      | c :: _ => negb (Ascii.eqb c hash)
      | [] => false
      end
  end.

(** The body of the loop of [le_produtos]. *)
Definition le_produtos_corpo (linha : str)
  : ProductCollection.method unit := fun produtos =>
  match Produto.from_csv linha with
  | Ok prod => ProductCollection.append prod produtos
  | Raise e => (Raise e, produtos)
  end.

(** [le_produtos], for a file of the given content; [produtos] is the
    module's catalogue. *)
Definition le_produtos (conteudo : str) : ProductCollection.method unit :=
  fun produtos =>
    linhas_relevantes (file_lines conteudo) le_produtos_corpo produtos.

(** ** The menu's commands

    The texts typed at the prompts are arguments; what [exibe_msg] shows is
    returned, with the exception that escapes the command, if one does. *)

Inductive mensagem : Type :=
| Mostra_produto (p : Produto.t)
| Mostra_resultado (x : option Produto.t)
| Produto_adicionado
| Campos_obrigatorios
| Produto_eliminado (elim_prod : Z)
| Lista_gravada
| Mostra_erro (err : exn).

(** A command: from the catalogue to what escapes, what is shown and the
    catalogue left. *)
Definition comando : Type :=
  ProductCollection.t -> result unit * list mensagem * ProductCollection.t.

(** [c in s], [s.count(c)] and [s.index(c)] for a character *)
Definition contains (c : ascii) (s : str) : bool := existsb (Ascii.eqb c) s.

Definition count_char (c : ascii) (s : str) : nat :=
  length (filter (Ascii.eqb c) s).

Fixpoint index_char (c : ascii) (s : str) : nat :=
  match s with
  | [] => O
  | d :: r => if Ascii.eqb d c then O else S (index_char c r)
  end.

Definition nonempty (s : str) : bool :=
  match s with [] => false | _ :: _ => true end.

(** The price as [new_prod_func] leaves it: a single comma becomes a
    point. *)
Definition preco_digitado (new_prod5 : str) : str :=
  if contains comma new_prod5 then
    if Nat.eqb (count_char comma new_prod5) 1 then
      firstn (index_char comma new_prod5) new_prod5
      ++ point :: skipn (index_char comma new_prod5 + 1) new_prod5
    else new_prod5
  else new_prod5.

(** [new_prod_func], on the five texts typed: it returns the five fields,
    or, [None], one of them is empty and it does not return: it shows its
    notice and calls [exec_menu()]. The condition of the [elif] is the
    negation of that of the [if]. *)
Definition new_prod_func (new_prod1 new_prod2 new_prod3 new_prod4 new_prod5 : str)
  : option (str * str * str * str * str) :=
  let new_prod5 := preco_digitado new_prod5 in
  if nonempty new_prod1 && nonempty new_prod2 && nonempty new_prod3
     && nonempty new_prod4 && nonempty new_prod5
  then Some (new_prod1, new_prod2, new_prod3, new_prod4, new_prod5)
  else None.

(** The record that [exec_adicionar] builds from the fields. *)
Definition new_prod_csv (f : str * str * str * str * str) : str :=
  let '(new_prod1, new_prod2, new_prod3, new_prod4, new_prod5) := f in
  new_prod1 ++ comma :: blank :: new_prod2 ++ comma :: blank :: new_prod3
  ++ comma :: blank :: new_prod4 ++ comma :: blank :: new_prod5.

(** The [except] clauses of [exec_adicionar]. *)
Definition exec_adicionar_apanha (e : exn) : bool :=
  caught_by e cls_InvalidProdAttribute || caught_by e cls_ValueError
  || caught_by e cls_InvalidOperation.

(** How [exec_adicionar] ends. [Termina]: it returns, or an exception
    escapes it. [Chama_exec_menu]: a field being empty, [new_prod_func] has
    shown its notice and called [exec_menu()]. That call does not return:
    [exec_menu] is a [while True] loop without [break] or [return], which
    only an exception leaves ([SystemExit] on the option [T], or what
    escapes a command of the nested menu); the exception then leaves
    [exec_adicionar] too, [new_prod_func] being called outside the [try].
    What [exec_adicionar] itself does ends at the call, and the nested menu
    goes on with the catalogue as it is then. *)
Inductive fim : Type :=
| Termina (r : result unit)
| Chama_exec_menu.

(** [exec_adicionar], on the five texts typed: how it ends, what it shows
    and the catalogue it leaves, or hands to the nested menu. *)
Definition exec_adicionar (new_prod1 new_prod2 new_prod3 new_prod4 new_prod5 : str)
  : ProductCollection.t -> fim * list mensagem * ProductCollection.t :=
  fun produtos =>
  match new_prod_func new_prod1 new_prod2 new_prod3 new_prod4 new_prod5 with
  | None => (Chama_exec_menu, [Campos_obrigatorios], produtos)
  | Some campos =>
      let tentativa :=
        match Produto.from_csv (new_prod_csv campos) with
        | Ok new_prod => ProductCollection.append new_prod produtos
        | Raise err => (Raise err, produtos)
        end in
      match tentativa with
      | (Ok _, produtos') => (Termina (Ok tt), [Produto_adicionado], produtos')
      | (Raise err, produtos') =>
          if exec_adicionar_apanha err
          then (Termina (Ok tt), [Mostra_erro err], produtos')
          else (Termina (Raise err), [], produtos')
      end
  end.

(** [exec_listar] *)
Definition exec_listar : comando := fun produtos =>
  (Ok tt, map Mostra_produto (ProductCollection.iter produtos), produtos).

(** [exec_pesquisar], on the text typed. *)
Definition exec_pesquisar (entrada : str) : comando := fun produtos =>
  match py_int entrada with
  | Raise err => (Raise err, [], produtos)
  | Ok id_ =>
      (Ok tt, [Mostra_resultado (ProductCollection.pesquisa_por_id id_ produtos)],
       produtos)
  end.

(** [exec_eliminar], on the text typed. *)
Definition exec_eliminar (entrada : str) : comando := fun produtos =>
  let lista := map Mostra_produto (ProductCollection.iter produtos) in
  match py_int entrada with
  | Raise err => (Raise err, lista, produtos)
  | Ok elim_prod =>
      match ProductCollection.eliminar elim_prod produtos with
      | (Ok _, produtos') =>
          (Ok tt, lista ++ [Produto_eliminado elim_prod], produtos')
      | (Raise err, produtos') =>
          if caught_by err cls_FileNotFound
          then (Ok tt, lista ++ [Mostra_erro err], produtos')
          else (Raise err, lista, produtos')
      end
  end.

(** [exec_guardar]: besides the command's outcome, the content it gives the
    file [produtos.csv]. *)
Definition exec_guardar (linesep : str)
  : ProductCollection.t -> str * (result unit * list mensagem * ProductCollection.t) :=
  fun produtos =>
    match ProductCollection.grava produtos with
    | (Ok new_list, produtos') =>
        (write_text linesep new_list, (Ok tt, [Lista_gravada], produtos'))
    | (Raise err, produtos') => ([], (Raise err, [], produtos'))
    end.

(** A character appended to the last of a list of fields. *)
Fixpoint snoc_last (fs : list str) (c : ascii) : list str :=
  match fs with
  | [] => []
  | [f] => [f ++ [c]]
  | f :: rest => f :: snoc_last rest c
  end.

(** What [from_csv] takes off each of the five fields before reading it:
    [int] skips its whitespace around the id and the quantity, [strip] and
    [Decimal] remove theirs around the name, the type and the price. *)
Definition aparas : list (str -> str) :=
  [strip_of is_int_space; strip; strip; strip_of is_int_space; strip].

Fixpoint aparar (fs : list (str -> str)) (attrs : list str) : list str :=
  match fs, attrs with
  | f :: fs', a :: attrs' => f a :: aparar fs' attrs'
  | _, _ => []
  end.

(** The first five fields of a record, trimmed: all that [from_csv] reads. *)
Definition campos (txt : str) : list str := aparar aparas (split comma txt).

(** [from_csv] on the trimmed fields. *)
Definition from_campos (cs : list str) : result Produto.t :=
  a0 <- getitem cs 0 ;;
  id_ <- py_int a0 ;;
  nome <- getitem cs 1 ;;
  tipo <- getitem cs 2 ;;
  a3 <- getitem cs 3 ;;
  quantidade <- py_int a3 ;;
  a4 <- getitem cs 4 ;;
  preco <- py_dec a4 ;;
  Produto.init id_ nome tipo quantidade preco.

(** A text with every comma turned into a point. *)
Definition virgula_decimal (s : str) : str :=
  map (fun c => if Ascii.eqb c comma then point else c) s.

(** What [exec_adicionar] is meant to build from fields typed without stray
    commas: the Product of the fields, read one by one. *)
Definition produto_dos_campos (n1 n2 n3 n4 n5 : str) : result Produto.t :=
  id_ <- py_int n1 ;;
  quantidade <- py_int n4 ;;
  preco <- py_dec n5 ;;
  Produto.init id_ (strip n2) (strip n3) quantidade preco.

(** ** Products as the constructor leaves them *)

(** A Product that the constructor can have returned. *)
Definition constructed (p : Produto.t) : Prop :=
  Produto.init (Produto.id p) (Produto.nome p) (Produto.tipo p)
    (Produto.quantidade p) (Produto.preco p) = Ok p.

(** A text without line breaks of either kind. *)
Definition one_line (s : str) : Prop :=
  Forall (fun c => Ascii.eqb c newline = false /\ Ascii.eqb c cr = false) s.

(** A Product whose record can be written to the file and read back: its
    name has no comma, no line break and no whitespace at either end. *)
Definition storable (p : Produto.t) : Prop :=
  constructed p /\ no_comma (Produto.nome p) /\
  strip (Produto.nome p) = Produto.nome p /\ one_line (Produto.nome p).

(** The dictionary entries of a list of products, each under its id. *)
Definition entries (ps : list Produto.t) : dict Produto.t :=
  map (fun p => (Produto.id p, p)) ps.

(** ** Sample values *)

Definition preco_1_5 : dec := Finite false 15 (-1).

Definition morangos : Produto.t :=
  Produto.mk 40001 (lit "morangos") (lit "FRL") 100 preco_1_5.

Definition arroz : Produto.t :=
  Produto.mk 40002 (lit "arroz") (lit "AL") 7 (Finite false 99 (-2)).

(** Another product with the id of [morangos]. *)
Definition framboesas : Produto.t :=
  Produto.mk 40001 (lit "framboesas") (lit "FRL") 3 (Finite false 2 0).

(** A catalogue of two products. *)
Definition catalogo : ProductCollection.t :=
  snd (ProductCollection.append arroz
         (snd (ProductCollection.append morangos ProductCollection.init))).

(** A catalogue file with a comment, an empty line and two records, the
    second padded with blanks and without a final line break. *)
Definition ficheiro_exemplo : str :=
  lit "# catalogo" ++ newline :: newline
  :: lit "40001,morangos,FRL,100,1.5" ++ newline
  :: lit " 40002, arroz ,al,7,0.99".

(** The same file with a line in between whose quantity is not a number. *)
Definition ficheiro_estragado : str :=
  lit "40001,morangos,FRL,100,1.5" ++ newline
  :: lit "40003,peras,FRL,muitas,2" ++ newline
  :: lit "40002,arroz,AL,7,0.99".

(** * Properties *)

(** ** Conversions on small inputs *)

Example int_of_str_spaces : int_of_str (lit " 40_001 ") = Some 40001.
Proof. reflexivity. Qed.
Example int_of_str_negative : int_of_str (lit "-007") = Some (-7).
Proof. reflexivity. Qed.
Example int_of_str_double_underscore : int_of_str (lit "4__0") = None.
Proof. reflexivity. Qed.
Example int_of_str_empty : int_of_str [] = None.
Proof. reflexivity. Qed.
Example int_of_str_no_break_space :
  int_of_str ("160"%char :: lit "5") = Some 5.
Proof. reflexivity. Qed.
Example int_of_str_separator : int_of_str ("028"%char :: lit "5") = None.
Proof. reflexivity. Qed.
Example dec_of_str_separator :
  dec_of_str ("028"%char :: lit "5") = Some (Finite false 5 0).
Proof. reflexivity. Qed.
Example strip_no_break_space : strip (lit "a" ++ ["160"%char]) = lit "a".
Proof. reflexivity. Qed.
Example str_of_int_negative : str_of_int (-1205) = lit "-1205".
Proof. reflexivity. Qed.
Example str_of_int_zero : str_of_int 0 = lit "0".
Proof. reflexivity. Qed.
Example split_empty_fields : split comma (lit "a,,b,") = [lit "a"; []; lit "b"; []].
Proof. reflexivity. Qed.
Example strip_inner_space : strip (lit "  a b  ") = lit "a b".
Proof. reflexivity. Qed.
Example dec_of_str_one_and_half : dec_of_str (lit "1.5") = Some (Finite false 15 (-1)).
Proof. reflexivity. Qed.
Example dec_of_str_exp : dec_of_str (lit " -12.50e+3 ") = Some (Finite true 1250 1).
Proof. reflexivity. Qed.
Example dec_of_str_inf : dec_of_str (lit "-Infinity") = Some (Infinity true).
Proof. reflexivity. Qed.
Example dec_of_str_bad : dec_of_str (lit "1,5") = None.
Proof. reflexivity. Qed.
Example dec_of_str_dot : dec_of_str (lit ".") = None.
Proof. reflexivity. Qed.
Example str_of_dec_one_and_half : str_of_dec (Finite false 15 (-1)) = lit "1.5".
Proof. reflexivity. Qed.
Example str_of_dec_small : str_of_dec (Finite false 5 (-7)) = lit "5E-7".
Proof. reflexivity. Qed.
Example str_of_dec_small2 : str_of_dec (Finite true 5 (-6)) = lit "-0.000005".
Proof. reflexivity. Qed.
Example str_of_dec_big : str_of_dec (Finite false 123 2) = lit "1.23E+4".
Proof. reflexivity. Qed.
Example str_of_dec_zero : str_of_dec (Finite false 0 2) = lit "0E+2".
Proof. reflexivity. Qed.
Example from_csv_sample :
  Produto.from_csv (lit "40001,morangos,FRL,100,1.5")
  = Ok (Produto.mk 40001 (lit "morangos") (lit "FRL") 100 (Finite false 15 (-1))).
Proof. reflexivity. Qed.

(** ** Dictionaries *)

Section DictFacts.
Context {V : Type}.
Implicit Types (d : dict V) (k : Z) (v : V).

Lemma dict_mem_keys k d : dict_mem k d = true <-> In k (dict_keys d).
Proof.
  unfold dict_mem, dict_keys. rewrite existsb_exists, in_map_iff.
  split; intros [kv [H1 H2]]; exists kv.
  - apply Z.eqb_eq in H2. auto.
  - split; [assumption | now apply Z.eqb_eq].
Qed.

Lemma dict_mem_false_keys k d : dict_mem k d = false <-> ~ In k (dict_keys d).
Proof.
  rewrite <- dict_mem_keys. destruct (dict_mem k d); split; intro H;
    try reflexivity; try discriminate; try (intro; discriminate).
  exfalso. now apply H.
Qed.

Lemma dict_get_mem k d : dict_get k d <> None <-> dict_mem k d = true.
Proof.
  induction d as [|[k' v'] d IH]; simpl.
  - split; [intro H; now elim H | discriminate].
  - destruct (k' =? k); simpl; [|exact IH].
    split; [reflexivity | discriminate].
Qed.

Lemma dict_get_none k d : dict_get k d = None <-> dict_mem k d = false.
Proof.
  induction d as [|[k' v'] d IH]; simpl.
  - tauto.
  - destruct (k' =? k); simpl; [|exact IH].
    split; discriminate.
Qed.

Lemma dict_get_in k v d : dict_get k d = Some v -> In (k, v) d.
Proof.
  induction d as [|[k' v'] d IH]; simpl; [discriminate|].
  destruct (k' =? k) eqn:E.
  - apply Z.eqb_eq in E. intros [= ->]. left. now subst.
  - intro H. right. auto.
Qed.

Lemma dict_in_get k v d :
  NoDup (dict_keys d) -> In (k, v) d -> dict_get k d = Some v.
Proof.
  induction d as [|[k' v'] d IH]; simpl; [intros _ []|].
  intros Hnd [H | H]; inversion Hnd as [|? ? Hnotin Hnd']; subst.
  - injection H as -> ->. now rewrite Z.eqb_refl.
  - destruct (k' =? k) eqn:E; [|auto].
    apply Z.eqb_eq in E. subst k'. exfalso. apply Hnotin.
    unfold dict_keys. apply in_map_iff. now exists (k, v).
Qed.

(** A new key goes to the end. *)
Lemma dict_set_fresh k v d :
  dict_mem k d = false -> dict_set k v d = d ++ [(k, v)].
Proof.
  induction d as [|[k' v'] d IH]; simpl; [reflexivity|].
  destruct (k' =? k); simpl; [discriminate|].
  intro H. now rewrite IH.
Qed.

Lemma dict_del_filter k d :
  NoDup (dict_keys d) ->
  dict_del k d = filter (fun kv => negb (fst kv =? k)) d.
Proof.
  induction d as [|[k' v'] d IH]; simpl; [reflexivity|].
  intro Hnd. inversion Hnd as [|? ? Hnotin Hnd']; subst.
  destruct (k' =? k) eqn:E; simpl.
  - apply Z.eqb_eq in E. subst k'.
    symmetry. apply forallb_filter_id. apply forallb_forall.
    intros [k2 v2] Hin. simpl. apply negb_true_iff, Z.eqb_neq.
    intros ->. apply Hnotin. unfold dict_keys. apply in_map_iff.
    now exists (k, v2).
  - now rewrite IH.
Qed.

Lemma dict_keys_filter (f : Z * V -> bool) d :
  NoDup (dict_keys d) -> NoDup (dict_keys (filter f d)).
Proof.
  induction d as [|kv d IH]; simpl; [auto|].
  intro Hnd. inversion Hnd as [|? ? Hnotin Hnd']; subst.
  destruct (f kv); simpl; [|auto].
  constructor; [|auto].
  intro Hin. apply Hnotin. unfold dict_keys in *.
  apply in_map_iff in Hin. destruct Hin as [x [Hx Hin]].
  apply filter_In in Hin. apply in_map_iff. exists x. tauto.
Qed.

Lemma dict_get_filter_key k k' d :
  k' <> k ->
  dict_get k' (filter (fun kv => negb (fst kv =? k)) d) = dict_get k' d.
Proof.
  intro Hne. induction d as [|[k2 v2] d IH]; simpl; [reflexivity|].
  destruct (k2 =? k) eqn:E; simpl.
  - apply Z.eqb_eq in E. subst k2.
    destruct (k =? k') eqn:E'; [apply Z.eqb_eq in E'; congruence | exact IH].
  - destruct (k2 =? k'); [reflexivity | exact IH].
Qed.

Lemma dict_mem_filter_key k d :
  dict_mem k (filter (fun kv => negb (fst kv =? k)) d) = false.
Proof.
  apply dict_mem_false_keys. unfold dict_keys. intro Hin.
  apply in_map_iff in Hin. destruct Hin as [[k2 v2] [Hk Hin]].
  apply filter_In in Hin. destruct Hin as [_ Hf]. simpl in *. subst k2.
  now rewrite Z.eqb_refl in Hf.
Qed.
End DictFacts.

(** ** The collection *)

Module CollectionFacts.
Import ProductCollection.

Lemma keys_app {V : Type} (d1 d2 : dict V) :
  dict_keys (d1 ++ d2) = dict_keys d1 ++ dict_keys d2.
Proof. apply map_app. Qed.

(** Under [well_keyed] the ids of the members are the keys. *)
Lemma ids_keys c :
  Forall (fun kv => fst kv = Produto.id (snd kv)) (_prods c) ->
  ids c = dict_keys (_prods c).
Proof.
  unfold ids, iter, dict_values, dict_keys. rewrite map_map.
  induction 1 as [|kv d Hkv _ IH]; simpl; [reflexivity|].
  now rewrite IH, Hkv.
Qed.

Lemma well_keyed_init : well_keyed init.
Proof. split; simpl; constructor. Qed.

Lemma well_keyed_append prod c :
  well_keyed c -> well_keyed (snd (append prod c)).
Proof.
  intros [Hnd Hid]. unfold append.
  destruct (dict_mem (Produto.id prod) (_prods c)) eqn:E; simpl.
  - now split.
  - rewrite (dict_set_fresh _ _ _ E). split; simpl.
    + rewrite keys_app. simpl.
      apply NoDup_app; [assumption | repeat constructor; intros [] | ].
      intros k Hk [<- | []]. now apply dict_mem_false_keys in E.
    + apply Forall_app. split; [assumption|]. now repeat constructor.
Qed.

Lemma well_keyed_eliminar k c :
  well_keyed c -> well_keyed (snd (eliminar k c)).
Proof.
  intros [Hnd Hid]. unfold eliminar.
  destruct (dict_mem k (_prods c)); simpl; [|now split].
  rewrite (dict_del_filter _ _ Hnd). split.
  - now apply dict_keys_filter.
  - rewrite Forall_forall in *. intros kv Hin.
    apply filter_In in Hin. now apply Hid.
Qed.

Lemma well_keyed_grava c : well_keyed c -> well_keyed (snd (grava c)).
Proof. intros [Hnd Hid]. now split. Qed.

(** The loop of [pesquisa] adds, after what [encontrados] holds, the
    entries of the source that satisfy the criterion. *)
Lemma pesquisa_loop_spec criterio d2 : forall d1 l,
  NoDup (dict_keys (d1 ++ d2)) ->
  Forall (fun kv => fst kv = Produto.id (snd kv)) d2 ->
  pesquisa_loop criterio (dict_values d2) (mk d1 l)
  = Ok (mk (d1 ++ filter (fun kv => criterio (snd kv)) d2) l).
Proof.
  induction d2 as [|[k p] d2 IH]; intros d1 l Hnd Hid; simpl.
  - now rewrite app_nil_r.
  - inversion Hid as [|? ? Hk Hid']; subst. simpl in Hk. subst k.
    rewrite keys_app in Hnd. simpl in Hnd.
    destruct (criterio p) eqn:Ec.
    + unfold append. simpl.
      assert (E : dict_mem (Produto.id p) d1 = false).
      { apply dict_mem_false_keys. intro Hin.
        apply NoDup_remove_2 in Hnd. apply Hnd, in_or_app. now left. }
      rewrite E, (dict_set_fresh _ _ _ E). rewrite IH; [| |assumption].
      * now rewrite <- app_assoc.
      * rewrite <- app_assoc, keys_app. exact Hnd.
    + apply IH; [|assumption]. rewrite keys_app.
      now apply NoDup_remove_1 in Hnd.
Qed.

Lemma pesquisa_spec criterio c :
  well_keyed c ->
  pesquisa criterio c
  = (Ok (mk (filter (fun kv => criterio (snd kv)) (_prods c)) []), c).
Proof.
  intros [Hnd Hid]. unfold pesquisa, init.
  now rewrite (pesquisa_loop_spec criterio (_prods c) [] []).
Qed.

Lemma well_keyed_filter f c l :
  well_keyed c -> well_keyed (mk (filter f (_prods c)) l).
Proof.
  intros [Hnd Hid]. split; simpl.
  - now apply dict_keys_filter.
  - rewrite Forall_forall in *. intros kv Hin.
    apply filter_In in Hin. now apply Hid.
Qed.

Lemma reachable_well_keyed c : reachable c -> well_keyed c.
Proof.
  induction 1 as [|prod c _ IH|k c _ IH|c _ IH|criterio c c' _ IH Hp].
  - exact well_keyed_init.
  - now apply well_keyed_append.
  - now apply well_keyed_eliminar.
  - now apply well_keyed_grava.
  - rewrite (pesquisa_spec criterio c IH) in Hp. simpl in Hp.
    injection Hp as <-. now apply well_keyed_filter.
Qed.

Lemma values_filter (f : Produto.t -> bool) (d : dict Produto.t) :
  dict_values (filter (fun kv => f (snd kv)) d) = filter f (dict_values d).
Proof.
  induction d as [|kv d IH]; simpl; [reflexivity|].
  destruct (f (snd kv)); simpl; now rewrite IH.
Qed.

(** What [grava] computes: the text accumulated so far, then the records
    of the members. *)
Lemma grava_loop_spec vals : forall acc,
  grava_loop vals acc = acc ++ records_text vals.
Proof.
  induction vals as [|p vals IH]; intro acc; simpl.
  - now rewrite app_nil_r.
  - rewrite IH. unfold records_text. simpl. now rewrite <- !app_assoc.
Qed.

Lemma grava_spec c :
  grava c = (Ok (list_ c ++ records_text (iter c)),
             mk (_prods c) (list_ c ++ records_text (iter c))).
Proof. unfold grava. now rewrite grava_loop_spec. Qed.

End CollectionFacts.

(** ** Claims about the collection *)

Import ProductCollection.

(** C6. When the id of [p2] is the id under which a member [p1] is stored,
    [append p2] raises [DuplicateValue], leaves the collection as it was,
    and looking up the id of [p1] still gives [p1]. *)
Theorem append_duplicate_rejected (c : t) (p1 p2 : Produto.t)
    (Hstored : pesquisa_por_id (Produto.id p1) c = Some p1)
    (Hsame : Produto.id p2 = Produto.id p1) :
  append p2 c = (Raise (DuplicateValue (Produto.id p2)), c) /\
  pesquisa_por_id (Produto.id p1) (snd (append p2 c)) = Some p1.
Proof.
  assert (E : dict_mem (Produto.id p2) (_prods c) = true).
  { rewrite Hsame. apply dict_get_mem. unfold pesquisa_por_id in Hstored.
    rewrite Hstored. discriminate. }
  unfold append. rewrite E. simpl. split; [reflexivity | exact Hstored].
Qed.

(** C7. [eliminar] works on the key: for a present id it succeeds, leaves
    exactly the other entries (in their order), so that the id is absent
    afterwards and deleting it again raises [FileNotFound]; for an absent id
    it raises [FileNotFound] and leaves the collection as it was. *)
Theorem eliminar_keyed_by_id (c : t) (k : Z)
    (Hdict : NoDup (dict_keys (_prods c))) :
  (pesquisa_por_id k c <> None ->
     exists c',
       eliminar k c = (Ok tt, c') /\
       _prods c' = filter (fun kv => negb (fst kv =? k)) (_prods c) /\
       list_ c' = list_ c /\
       pesquisa_por_id k c' = None /\
       (forall k', k' <> k -> pesquisa_por_id k' c' = pesquisa_por_id k' c) /\
       eliminar k c' = (Raise (FileNotFound k), c')) /\
  (pesquisa_por_id k c = None ->
     eliminar k c = (Raise (FileNotFound k), c)).
Proof.
  unfold pesquisa_por_id. split.
  - intro Hin. apply dict_get_mem in Hin.
    exists (mk (dict_del k (_prods c)) (list_ c)).
    unfold eliminar at 1. rewrite Hin. simpl.
    rewrite (dict_del_filter _ _ Hdict).
    repeat split.
    + apply dict_get_none, dict_mem_filter_key.
    + intros k' Hk'. now apply dict_get_filter_key.
    + unfold eliminar. simpl. now rewrite dict_mem_filter_key.
  - intro Hout. apply dict_get_none in Hout.
    unfold eliminar. now rewrite Hout.
Qed.

(** C8. [pesquisa] returns a new collection and leaves the source as it
    was; the members of the result are, in order, the source members that
    satisfy the criterion, and each is found in the result under the key it
    has in the source. *)
Theorem pesquisa_selects (criterio : Produto.t -> bool) (c : t)
    (Hc : well_keyed c) :
  exists r,
    pesquisa criterio c = (Ok r, c) /\
    iter r = filter criterio (iter c) /\
    (forall k m,
       pesquisa_por_id k r = Some m <->
       pesquisa_por_id k c = Some m /\ criterio m = true) /\
    (forall m, In m (iter r) -> pesquisa_por_id (Produto.id m) r = Some m).
Proof.
  exists (mk (filter (fun kv => criterio (snd kv)) (_prods c)) []).
  pose proof (CollectionFacts.well_keyed_filter
                (fun kv => criterio (snd kv)) c [] Hc) as [Hnd' Hid'].
  destruct Hc as [Hnd Hid]. simpl in Hnd', Hid'.
  split; [now apply CollectionFacts.pesquisa_spec|].
  unfold iter, pesquisa_por_id. simpl.
  split; [apply CollectionFacts.values_filter|]. split.
  - intros k m. split.
    + intro Hget. apply dict_get_in, filter_In in Hget.
      destruct Hget as [Hin Hcr]. split; [|exact Hcr].
      now apply dict_in_get.
    + intros [Hget Hcr]. apply dict_in_get; [assumption|].
      apply filter_In. split; [now apply dict_get_in | exact Hcr].
  - intros m Hin. unfold dict_values in Hin. apply in_map_iff in Hin.
    destruct Hin as [[k m'] [Hm Hin]]. simpl in Hm. subst m'.
    apply dict_in_get; [assumption|].
    rewrite Forall_forall in Hid'. specialize (Hid' _ Hin). simpl in Hid'.
    now subst k.
Qed.

(** C9. In a collection built by the public operations no two members have
    the same id. *)
Theorem reachable_ids_unique (c : t) (Hc : reachable c) : NoDup (ids c).
Proof.
  destruct (CollectionFacts.reachable_well_keyed c Hc) as [Hnd Hid].
  now rewrite CollectionFacts.ids_keys.
Qed.

(** ** Integers as text *)

Module NumberText.

Local Open Scope N_scope.

Lemma log2_div10 n : 10 <= n -> N.log2 (n / 10) < N.log2 n.
Proof.
  intro Hn.
  assert (H0 : 0 < n) by lia.
  assert (Hq : 0 < n / 10).
  { apply N.div_str_pos. lia. }
  apply N.log2_lt_pow2; [exact Hq|].
  destruct (N.log2_spec n H0) as [_ Hup].
  rewrite N.pow_succ_r' in Hup.
  apply N.Div0.div_lt_upper_bound; lia.
Qed.

Lemma div10_lt n : 10 <= n -> n / 10 < n.
Proof. intro Hn. apply N.div_lt; lia. Qed.

(** Induction along the digits of a number. *)
Lemma digit_ind (P : N -> Prop) :
  (forall n, n < 10 -> P n) ->
  (forall n, 10 <= n -> P (n / 10) -> P n) ->
  forall n, P n.
Proof.
  intros Hsmall Hbig n.
  induction n as [n IH] using (well_founded_induction N.lt_wf_0).
  destruct (N.ltb_spec n 10) as [Hlt | Hge].
  - now apply Hsmall.
  - apply Hbig; [assumption|]. apply IH. now apply div10_lt.
Qed.

Lemma enough_div10 f n : 10 <= n -> enough (S f) n -> enough f (n / 10).
Proof.
  unfold enough. intros Hn Hf. pose proof (log2_div10 n Hn). lia.
Qed.

Lemma digits_fuel_acc f : forall n acc,
  enough f n -> digits_fuel f n acc = digits_fuel f n [] ++ acc.
Proof.
  induction f as [|f IH]; intros n acc Hf.
  - unfold enough in Hf. lia.
  - simpl. destruct (N.ltb_spec n 10) as [Hlt | Hge]; [reflexivity|].
    pose proof (enough_div10 f n Hge Hf) as Hf'.
    rewrite (IH _ (_ :: acc) Hf'), (IH _ [_] Hf'), <- app_assoc.
    reflexivity.
Qed.

Lemma digits_fuel_indep f : forall f' n,
  enough f n -> enough f' n -> digits_fuel f n [] = digits_fuel f' n [].
Proof.
  induction f as [|f IH]; intros f' n Hf Hf'.
  - unfold enough in Hf. lia.
  - destruct f' as [|f']; [unfold enough in Hf'; lia|].
    simpl. destruct (N.ltb_spec n 10) as [Hlt | Hge]; [reflexivity|].
    pose proof (enough_div10 f n Hge Hf) as H1.
    pose proof (enough_div10 f' n Hge Hf') as H2.
    rewrite (digits_fuel_acc f _ [_] H1), (digits_fuel_acc f' _ [_] H2).
    now rewrite (IH f' _ H1 H2).
Qed.

(** The digits of [n]: one digit below ten, otherwise the digits of
    [n / 10] and then the last digit. *)
Lemma str_of_N_small n : n < 10 -> str_of_N n = [digit_char n].
Proof.
  intro Hn. unfold str_of_N. simpl.
  destruct (N.ltb_spec n 10) as [_ | Hge]; [|lia].
  now rewrite N.mod_small.
Qed.

Lemma str_of_N_big n :
  10 <= n -> str_of_N n = str_of_N (n / 10) ++ [digit_char (n mod 10)].
Proof.
  intro Hn. unfold str_of_N at 1. simpl.
  destruct (N.ltb_spec n 10) as [Hlt | _]; [lia|].
  assert (Hf : enough (N.to_nat (N.log2 n)) (n / 10)).
  { unfold enough. pose proof (log2_div10 n Hn). lia. }
  rewrite (digits_fuel_acc _ _ [_] Hf). f_equal.
  apply digits_fuel_indep; [exact Hf | unfold enough; lia].
Qed.

Lemma code_digit_char d : d < 10 -> code (digit_char d) = 48 + d.
Proof.
  intro Hd. unfold code, digit_char. apply N_ascii_embedding. lia.
Qed.

Lemma is_digit_digit_char d : d < 10 -> is_digit (digit_char d) = true.
Proof.
  intro Hd. unfold is_digit. rewrite (code_digit_char d Hd).
  apply andb_true_iff. split; apply N.leb_le; lia.
Qed.

Lemma digit_val_digit_char d : d < 10 -> digit_val (digit_char d) = d.
Proof.
  intro Hd. unfold digit_val. rewrite (code_digit_char d Hd). lia.
Qed.

Lemma mod10_lt n : n mod 10 < 10.
Proof. apply N.mod_lt. lia. Qed.

Lemma str_of_N_digits n : Forall (fun c => is_digit c = true) (str_of_N n).
Proof.
  induction n as [n Hn | n Hn IH] using digit_ind.
  - rewrite (str_of_N_small n Hn). constructor; [|constructor].
    now apply is_digit_digit_char.
  - rewrite (str_of_N_big n Hn). apply Forall_app. split; [exact IH|].
    constructor; [|constructor]. apply is_digit_digit_char, mod10_lt.
Qed.

Lemma str_of_N_nonempty n : str_of_N n <> [].
Proof.
  destruct (N.ltb_spec n 10) as [Hlt | Hge].
  - rewrite (str_of_N_small n Hlt). discriminate.
  - rewrite (str_of_N_big n Hge). intro H.
    apply app_eq_nil in H. destruct H as [_ H]. discriminate.
Qed.

Lemma digits_value_app a : forall b acc,
  digits_value (a ++ b) acc = digits_value b (digits_value a acc).
Proof.
  induction a as [|c a IH]; intros b acc; simpl; [reflexivity | apply IH].
Qed.

(** Reading the digits of [n] gives [n] back. *)
Lemma digits_value_str_of_N n : digits_value (str_of_N n) 0 = n.
Proof.
  induction n as [n Hn | n Hn IH] using digit_ind.
  - rewrite (str_of_N_small n Hn). simpl.
    rewrite (digit_val_digit_char n Hn). lia.
  - rewrite (str_of_N_big n Hn), digits_value_app, IH.
    cbn [digits_value].
    rewrite (digit_val_digit_char _ (mod10_lt n)).
    symmetry. apply N.div_mod. lia.
Qed.

(** A number has at most [k + 1] digits exactly when it is below
    [10 ^ (k + 1)]. *)
Lemma str_of_N_length_le k : forall n,
  (length (str_of_N n) <= S k)%nat <-> n < 10 ^ N.of_nat (S k).
Proof.
  induction k as [|k IH]; intro n.
  - change (10 ^ N.of_nat 1) with 10.
    destruct (N.ltb_spec n 10) as [Hlt | Hge].
    + rewrite (str_of_N_small n Hlt). simpl. split; [auto | lia].
    + rewrite (str_of_N_big n Hge), length_app. simpl.
      pose proof (str_of_N_nonempty (n / 10)) as Hne.
      destruct (str_of_N (n / 10)); [now elim Hne|]. simpl. lia.
  - replace (N.of_nat (S (S k))) with (N.succ (N.of_nat (S k))) by lia.
    rewrite N.pow_succ_r'.
    destruct (N.ltb_spec n 10) as [Hlt | Hge].
    + rewrite (str_of_N_small n Hlt). simpl.
      assert (10 ^ N.of_nat (S k) <> 0) by (apply N.pow_nonzero; lia).
      split; intro; lia.
    + rewrite (str_of_N_big n Hge), length_app. simpl.
      specialize (IH (n / 10)).
      split; intro H.
      * assert (Hq : n / 10 < 10 ^ N.of_nat (S k)) by (apply IH; lia).
        pose proof (N.div_mod n 10 ltac:(lia)) as Hdm.
        pose proof (mod10_lt n).
        remember (10 ^ N.of_nat (S k)) as b. remember (n / 10) as q.
        remember (n mod 10) as r. lia.
      * assert (Hq : n / 10 < 10 ^ N.of_nat (S k)).
        { apply N.Div0.div_lt_upper_bound; lia. }
        apply IH in Hq. lia.
Qed.

Lemma str_of_N_length_5 n :
  length (str_of_N n) = 5%nat <-> 10000 <= n <= 99999.
Proof.
  pose proof (str_of_N_length_le 4 n) as H5.
  pose proof (str_of_N_length_le 3 n) as H4.
  change (10 ^ N.of_nat 5) with 100000 in H5.
  change (10 ^ N.of_nat 4) with 10000 in H4.
  split; intro H.
  - split.
    + destruct (N.ltb_spec n 10000) as [Hlt | Hge]; [|assumption].
      apply H4 in Hlt. lia.
    + assert (n < 100000) by (apply H5; lia). lia.
  - assert (length (str_of_N n) <= 5)%nat by (apply H5; lia).
    assert (~ (length (str_of_N n) <= 4)%nat).
    { intro Hle. apply H4 in Hle. lia. }
    lia.
Qed.

End NumberText.

(** ** The constructor *)

Module ProdutoFacts.

Lemma str_of_int_nonneg z : 0 <= z -> str_of_int z = str_of_N (Z.to_N z).
Proof.
  intro Hz. unfold str_of_int.
  destruct (Z.ltb_spec z 0) as [Hlt | _]; [lia|].
  f_equal. lia.
Qed.

(** A non-negative id has five digits exactly when it lies between 10000
    and 99999. *)
Lemma id_five_digits z :
  0 <= z /\ length (str_of_int z) = 5%nat <-> 10000 <= z <= 99999.
Proof.
  split.
  - intros [Hz Hlen]. rewrite (str_of_int_nonneg z Hz) in Hlen.
    apply NumberText.str_of_N_length_5 in Hlen. lia.
  - intro Hz. split; [lia|]. rewrite str_of_int_nonneg by lia.
    apply NumberText.str_of_N_length_5. lia.
Qed.

(** What a successful construction tells about its arguments. *)
Lemma init_ok_inv id_ nome tipo quantidade preco p :
  Produto.init id_ nome tipo quantidade preco = Ok p ->
  0 <= id_ /\ length (str_of_int id_) = 5%nat /\ nome <> [] /\
  type_known (upper tipo) = true /\ 0 <= quantidade /\
  dec_lt_zero preco = Ok false /\
  p = Produto.mk id_ nome (upper tipo) quantidade preco.
Proof.
  unfold Produto.init.
  destruct (Z.ltb_spec id_ 0) as [Hlt | Hge]; simpl; [discriminate|].
  destruct (Nat.eqb_spec (length (str_of_int id_)) 5) as [Hlen | Hlen];
    simpl; [|discriminate].
  destruct nome as [|c nome]; [discriminate|].
  destruct (type_known (upper tipo)); simpl; [|discriminate].
  destruct (Z.ltb_spec quantidade 0) as [Hq | Hq]; [discriminate|].
  destruct (dec_lt_zero preco) as [[|]|e]; simpl; try discriminate.
  intros [= <-]. repeat split; auto. discriminate.
Qed.

Lemma init_empty_name id_ tipo quantidade preco :
  exists a,
    Produto.init id_ [] tipo quantidade preco = Raise (InvalidProdAttribute a).
Proof.
  unfold Produto.init.
  destruct ((id_ <? 0) || negb (Nat.eqb (length (str_of_int id_)) 5));
    eexists; reflexivity.
Qed.

Lemma find_existsb {A : Type} (f : A -> bool) (l : list A) :
  existsb f l = true -> exists x, find f l = Some x.
Proof.
  induction l as [|a l IH]; simpl; [discriminate|].
  destruct (f a); simpl; [intros _; now exists a | exact IH].
Qed.

Lemma type_name_known k :
  type_known k = true -> exists s, type_name k = Ok s.
Proof.
  unfold type_known, type_name. intro H.
  destruct (find_existsb _ _ H) as [x Hx]. rewrite Hx. simpl. eauto.
Qed.

Lemma dec_ge_zero_lt d : dec_ge_zero d -> dec_lt_zero d = Ok false.
Proof.
  unfold dec_ge_zero, dec_lt_zero. now intros [-> | ->].
Qed.

End ProdutoFacts.

(** C3. The constructor accepts every input whose id is non-negative with
    five digits (that is, between 10000 and 99999), whose name is not empty,
    whose type code in upper case is a key of [PRODUCT_TYPES] and whose
    quantity and price are not negative; the Product it returns has the
    supplied id, name, quantity and price, and the type code in upper
    case. *)
Theorem init_accepts_valid (id_ : Z) (nome tipo : str) (quantidade : Z)
    (preco : dec)
    (Hid : 0 <= id_ /\ length (str_of_int id_) = 5%nat)
    (Hnome : nome <> [])
    (Htipo : type_known (upper tipo) = true)
    (Hquantidade : 0 <= quantidade)
    (Hpreco : dec_ge_zero preco) :
  (forall z, 0 <= z /\ length (str_of_int z) = 5%nat <-> 10000 <= z <= 99999) /\
  exists p,
    Produto.init id_ nome tipo quantidade preco = Ok p /\
    Produto.id p = id_ /\ Produto.nome p = nome /\
    Produto.tipo p = upper tipo /\
    Produto.quantidade p = quantidade /\ Produto.preco p = preco.
Proof.
  split; [exact ProdutoFacts.id_five_digits|].
  destruct Hid as [Hid Hlen].
  exists (Produto.mk id_ nome (upper tipo) quantidade preco).
  split; [|now repeat split].
  unfold Produto.init.
  destruct (Z.ltb_spec id_ 0) as [Hlt | _]; [lia|].
  rewrite Hlen, Htipo. simpl.
  destruct nome as [|c nome]; [now elim Hnome|].
  destruct (Z.ltb_spec quantidade 0) as [Hlt | _]; [lia|].
  now rewrite (ProdutoFacts.dec_ge_zero_lt preco Hpreco).
Qed.

(** C4, as the code has it. The constructor raises [InvalidProdAttribute]
    for every input whose name is the empty text; it does not trim, the
    trimming is done by [from_csv], which therefore produces no Product from
    a record whose name field is empty once trimmed. *)
Theorem empty_name_rejected :
  (forall id_ tipo quantidade preco,
     exists a,
       Produto.init id_ [] tipo quantidade preco
       = Raise (InvalidProdAttribute a)) /\
  (forall txt a1,
     nth_error (split comma txt) 1 = Some a1 ->
     strip a1 = [] ->
     exists e, Produto.from_csv txt = Raise e).
Proof.
  split; [apply ProdutoFacts.init_empty_name|].
  intros txt a1 Hnth Hstrip. unfold Produto.from_csv, getitem.
  rewrite Hnth.
  destruct (of_option IndexError (nth_error (split comma txt) 0)) as [a0|e];
    cbn [bind of_option]; [|eauto].
  destruct (py_int a0) as [i|e]; cbn [bind]; [|eauto].
  destruct (of_option IndexError (nth_error (split comma txt) 2)) as [a2|e];
    cbn [bind]; [|eauto].
  destruct (of_option IndexError (nth_error (split comma txt) 3)) as [a3|e];
    cbn [bind]; [|eauto].
  destruct (py_int a3) as [q|e]; cbn [bind]; [|eauto].
  destruct (of_option IndexError (nth_error (split comma txt) 4)) as [a4|e];
    cbn [bind]; [|eauto].
  destruct (py_dec a4) as [pr|e]; cbn [bind]; [|eauto].
  rewrite Hstrip.
  destruct (ProdutoFacts.init_empty_name i (strip a2) q pr) as [a Ha].
  rewrite Ha. eauto.
Qed.

(** C10. The type code stored by the constructor is a key of
    [PRODUCT_TYPES], so [nome_tipo] finds the category name of every
    constructed Product. *)
Theorem nome_tipo_defined (id_ : Z) (nome tipo : str) (quantidade : Z)
    (preco : dec) (p : Produto.t)
    (Hp : Produto.init id_ nome tipo quantidade preco = Ok p) :
  type_known (Produto.tipo p) = true /\
  exists s, Produto.nome_tipo p = Ok s.
Proof.
  apply ProdutoFacts.init_ok_inv in Hp.
  destruct Hp as (_ & _ & _ & Ht & _ & _ & ->). simpl.
  split; [exact Ht|]. unfold Produto.nome_tipo. simpl.
  now apply ProdutoFacts.type_name_known.
Qed.

(** ** Texts: trimming, splitting, reading numbers *)

Module TextFacts.

(** Case analysis over the 256 characters. *)
Ltac by_chars c :=
  destruct c as [[] [] [] [] [] [] [] []];
  try reflexivity; try discriminate.

Lemma digit_plain c : is_digit c = true -> plain c.
Proof. unfold plain. intro H. by_chars c; repeat split. Qed.

Lemma digit_lower c : is_digit c = true -> lower_char c = c.
Proof. intro H. by_chars c. Qed.

Lemma digit_not_E c :
  is_digit c = true -> Ascii.eqb (upper_char c) "E"%char = false.
Proof. intro H. by_chars c. Qed.

Lemma parse_sign_digit c r :
  is_digit c = true -> parse_sign (c :: r) = (false, c :: r).
Proof. intro H. by_chars c. Qed.

Lemma digits_plain s :
  Forall (fun c => is_digit c = true) s -> Forall plain s.
Proof. apply Forall_impl. exact digit_plain. Qed.

(** *** [strip] *)

(** The whitespace of [int] is whitespace for [strip]. *)
Lemma int_space_space c : is_int_space c = true -> is_space c = true.
Proof. intro H. by_chars c. Qed.

Lemma space_int_space c : is_space c = false -> is_int_space c = false.
Proof.
  intro H. destruct (is_int_space c) eqn:E; [|reflexivity].
  apply int_space_space in E. congruence.
Qed.

Lemma drop_while_clean sp s :
  Forall (fun c => sp c = false) s -> drop_while sp s = s.
Proof.
  destruct 1 as [|c s Hc _]; simpl; [reflexivity|]. now rewrite Hc.
Qed.

Lemma strip_of_clean sp s :
  Forall (fun c => sp c = false) s -> strip_of sp s = s.
Proof.
  intro H. unfold strip_of. rewrite (drop_while_clean sp s H).
  rewrite drop_while_clean by now apply Forall_rev.
  apply rev_involutive.
Qed.

Lemma strip_plain s : Forall plain s -> strip s = s.
Proof.
  intro H. apply strip_of_clean. revert H. apply Forall_impl.
  now intros c [Hc _].
Qed.

Lemma int_strip_plain s : Forall plain s -> strip_of is_int_space s = s.
Proof.
  intro H. apply strip_of_clean. revert H. apply Forall_impl.
  intros c [Hc _]. now apply space_int_space.
Qed.

Lemma remove_underscores_plain s : Forall plain s -> remove_underscores s = s.
Proof.
  intro H. unfold remove_underscores. apply forallb_filter_id.
  apply forallb_forall. rewrite Forall_forall in H.
  intros c Hc. destruct (H c Hc) as (_ & -> & _). reflexivity.
Qed.

(** *** [split] *)

Lemma plain_no_comma s : Forall plain s -> no_comma s.
Proof. apply Forall_impl. now intros c (_ & _ & H). Qed.

Lemma split_no_comma s : no_comma s -> split comma s = [s].
Proof.
  induction 1 as [|c s Hc _ IH]; simpl; [reflexivity|].
  now rewrite Hc, IH.
Qed.

Lemma split_field a b :
  no_comma a -> split comma (a ++ comma :: b) = a :: split comma b.
Proof.
  induction 1 as [|c a Hc _ IH]; simpl; [reflexivity|].
  now rewrite Hc, IH.
Qed.

Lemma split_nonempty s : split comma s <> [].
Proof.
  destruct s as [|c s]; simpl; [discriminate|].
  destruct (Ascii.eqb c comma); [discriminate|].
  destruct (split comma s); discriminate.
Qed.

(** *** [int] reads what [str] prints *)

Lemma int_body_digits s : forall acc,
  Forall (fun c => is_digit c = true) s ->
  int_body s acc true = Some (digits_value s acc).
Proof.
  induction s as [|c s IH]; intros acc H; simpl; [reflexivity|].
  inversion H as [|? ? Hc Hs]; subst. rewrite Hc. now apply IH.
Qed.

Lemma int_body_number n :
  int_body (str_of_N n) 0%N false = Some n.
Proof.
  pose proof (NumberText.str_of_N_digits n) as Hd.
  pose proof (NumberText.str_of_N_nonempty n) as Hne.
  pose proof (NumberText.digits_value_str_of_N n) as Hv.
  destruct (str_of_N n) as [|c s]; [now elim Hne|].
  apply Forall_cons_iff in Hd. destruct Hd as [Hc Hs].
  cbn [int_body]. rewrite Hc.
  rewrite (int_body_digits s _ Hs). f_equal. exact Hv.
Qed.

Lemma str_of_int_plain z : Forall plain (str_of_int z).
Proof.
  unfold str_of_int. destruct (z <? 0).
  - constructor; [now repeat split|].
    apply digits_plain, NumberText.str_of_N_digits.
  - apply digits_plain, NumberText.str_of_N_digits.
Qed.

Lemma parse_sign_number n :
  parse_sign (str_of_N n) = (false, str_of_N n).
Proof.
  pose proof (NumberText.str_of_N_digits n) as Hd.
  destruct (str_of_N n) as [|c s]; [reflexivity|].
  apply Forall_cons_iff in Hd. now apply parse_sign_digit.
Qed.

Lemma int_of_str_of_int z : int_of_str (str_of_int z) = Some z.
Proof.
  unfold int_of_str. rewrite (int_strip_plain _ (str_of_int_plain z)).
  unfold str_of_int. destruct (Z.ltb_spec z 0) as [Hlt | Hge].
  - cbn [parse_sign]. rewrite int_body_number. simpl. f_equal. lia.
  - rewrite parse_sign_number, int_body_number. simpl. f_equal. lia.
Qed.

End TextFacts.

(** ** Decimals as text *)

Module DecimalText.
Import TextFacts.

Lemma span_digits_app ds : forall rest,
  Forall (fun c => is_digit c = true) ds -> span_digits rest = ([], rest) ->
  span_digits (ds ++ rest) = (ds, rest).
Proof.
  induction ds as [|c ds IH]; intros rest Hd Hrest; simpl; [exact Hrest|].
  apply Forall_cons_iff in Hd. destruct Hd as [Hc Hd].
  now rewrite Hc, (IH rest Hd Hrest).
Qed.

Lemma span_digits_all ds : Forall (fun c => is_digit c = true) ds -> span_digits ds = (ds, []).
Proof.
  intro Hd. rewrite <- (app_nil_r ds) at 1. now apply span_digits_app.
Qed.

Lemma zeros_digits k : Forall (fun c => is_digit c = true) (zeros k).
Proof. induction k; simpl; constructor; auto. Qed.

Lemma zeros_value k : digits_value (zeros k) 0%N = 0%N.
Proof. induction k; simpl; auto. Qed.

Lemma zeros_length k : length (zeros k) = k.
Proof. apply repeat_length. Qed.

(** *** The exponent *)

Lemma exp_str_plain e : Forall plain (exp_str e).
Proof.
  unfold exp_str. constructor; [now repeat split|].
  constructor; [destruct (e <? 0); now repeat split|].
  apply digits_plain, NumberText.str_of_N_digits.
Qed.

Lemma parse_exp_number sg n :
  parse_exp ((if (sg : bool) then "-"%char else "+"%char) :: str_of_N n)
  = Some (if sg then - Z.of_N n else Z.of_N n).
Proof.
  unfold parse_exp.
  assert (Hs : parse_sign ((if sg then "-"%char else "+"%char) :: str_of_N n)
               = (sg, str_of_N n)) by now destruct sg.
  rewrite Hs, (span_digits_all _ (NumberText.str_of_N_digits n)).
  pose proof (NumberText.str_of_N_nonempty n) as Hne.
  pose proof (NumberText.digits_value_str_of_N n) as Hv.
  destruct (str_of_N n); [now elim Hne|]. now rewrite Hv.
Qed.

Lemma parse_exp_opt_exp_str e : parse_exp_opt (exp_str e) = Some e.
Proof.
  unfold exp_str, parse_exp_opt.
  change (Ascii.eqb (upper_char "E") "E") with true. cbv iota.
  rewrite (parse_exp_number (e <? 0) (Z.abs_N e)). f_equal.
  destruct (Z.ltb_spec e 0); lia.
Qed.

Lemma exp_part_spec e :
  span_digits (exp_part e) = ([], exp_part e) /\
  parse_exp_opt (exp_part e) = Some e /\
  Forall plain (exp_part e) /\
  match exp_part e with "."%char :: _ => False | _ => True end.
Proof.
  unfold exp_part. destruct (Z.eqb_spec e 0) as [-> | _].
  - repeat split. constructor.
  - repeat split.
    + apply parse_exp_opt_exp_str.
    + apply exp_str_plain.
Qed.

(** *** The number *)

Lemma parse_number_whole sg ip e :
  Forall (fun c => is_digit c = true) ip -> ip <> [] ->
  parse_number sg (ip ++ exp_part e)
  = Some (Finite sg (digits_value ip 0) e).
Proof.
  intros Hip Hne. destruct (exp_part_spec e) as (Hsp & Hex & _ & Hdot).
  unfold parse_number. rewrite (span_digits_app ip _ Hip Hsp).
  assert (Hr : match exp_part e with
               | "."%char :: r => span_digits r
               | _ => ([], exp_part e)
               end = (@nil ascii, exp_part e)).
  { destruct (exp_part e) as [|c r]; [reflexivity|].
    by_chars c; now elim Hdot. }
  rewrite Hr, app_nil_r, Hex.
  destruct ip; [now elim Hne|]. simpl length. now rewrite Z.sub_0_r.
Qed.

Lemma parse_number_fraction sg ip fp e :
  Forall (fun c => is_digit c = true) ip -> Forall (fun c => is_digit c = true) fp -> ip <> [] ->
  parse_number sg (ip ++ "."%char :: fp ++ exp_part e)
  = Some (Finite sg (digits_value (ip ++ fp) 0) (e - Z.of_nat (length fp))).
Proof.
  intros Hip Hfp Hne. destruct (exp_part_spec e) as (Hsp & Hex & _ & _).
  unfold parse_number.
  rewrite (span_digits_app ip _ Hip) by reflexivity.
  rewrite (span_digits_app fp _ Hfp Hsp), Hex.
  destruct ip; [now elim Hne | reflexivity].
Qed.

End DecimalText.

(** ** [Decimal] reads what [str] prints *)

Module DecimalRoundTrip.
Import TextFacts DecimalText.

Lemma parse_sign_digits ip rest :
  Forall (fun c => is_digit c = true) ip -> ip <> [] ->
  parse_sign (ip ++ rest) = (false, ip ++ rest).
Proof.
  intros Hip Hne. destruct ip as [|c ip]; [now elim Hne|].
  apply Forall_cons_iff in Hip. now apply parse_sign_digit.
Qed.

Lemma dec_of_str_signed s body d :
  Forall plain body -> parse_sign body = (false, body) ->
  parse_number s body = Some d ->
  dec_of_str (sign_str s ++ body) = Some d.
Proof.
  intros Hplain Hsign Hnum. unfold dec_of_str.
  assert (Hall : Forall plain (sign_str s ++ body)).
  { apply Forall_app. split; [|assumption].
    destruct s; simpl; [constructor; [now repeat split|]|]; constructor. }
  rewrite (strip_plain _ Hall), (remove_underscores_plain _ Hall).
  assert (Hs : parse_sign (sign_str s ++ body) = (s, body))
    by (destruct s; [reflexivity | exact Hsign]).
  now rewrite Hs, Hnum.
Qed.

Lemma dot_plain : plain "."%char.
Proof. now repeat split. Qed.

(** A printed number without fraction. *)
Lemma dec_of_str_whole s ip e :
  Forall (fun c => is_digit c = true) ip -> ip <> [] ->
  dec_of_str (sign_str s ++ ip ++ exp_part e)
  = Some (Finite s (digits_value ip 0) e).
Proof.
  intros Hip Hne. apply dec_of_str_signed.
  - apply Forall_app. split; [now apply digits_plain|].
    apply exp_part_spec.
  - now apply parse_sign_digits.
  - now apply parse_number_whole.
Qed.

(** A printed number with a fraction. *)
Lemma dec_of_str_fraction s ip fp e :
  Forall (fun c => is_digit c = true) ip ->
  Forall (fun c => is_digit c = true) fp -> ip <> [] ->
  dec_of_str (sign_str s ++ ip ++ "."%char :: fp ++ exp_part e)
  = Some (Finite s (digits_value (ip ++ fp) 0) (e - Z.of_nat (length fp))).
Proof.
  intros Hip Hfp Hne. apply dec_of_str_signed.
  - apply Forall_app. split; [now apply digits_plain|].
    constructor; [exact dot_plain|].
    apply Forall_app. split; [now apply digits_plain|]. apply exp_part_spec.
  - now apply parse_sign_digits.
  - now apply parse_number_fraction.
Qed.

Lemma digits_split k ds :
  Forall (fun c => is_digit c = true) ds ->
  Forall (fun c => is_digit c = true) (firstn k ds) /\
  Forall (fun c => is_digit c = true) (skipn k ds).
Proof.
  intro H. rewrite <- (firstn_skipn k ds) in H. now apply Forall_app in H.
Qed.

Lemma exp_choice ld dp :
  (if ld =? dp then [] else exp_str (ld - dp)) = exp_part (ld - dp).
Proof.
  unfold exp_part.
  destruct (Z.eqb_spec ld dp), (Z.eqb_spec (ld - dp) 0); auto; lia.
Qed.

(** Scientific notation: one digit before the point. *)
Lemma dec_of_str_scientific s c e :
  let ds := str_of_N c in
  let n := Z.of_nat (length ds) in
  dec_of_str
    (sign_str s
     ++ (if n <=? 1 then ds ++ zeros (Z.to_nat (1 - n))
         else firstn (Z.to_nat 1) ds)
     ++ (if n <=? 1 then [] else "."%char :: skipn (Z.to_nat 1) ds)
     ++ exp_part (e + n - 1))
  = Some (Finite s c e).
Proof.
  intros ds n.
  pose proof (NumberText.str_of_N_digits c) as Hd.
  pose proof (NumberText.str_of_N_nonempty c) as Hne.
  pose proof (NumberText.digits_value_str_of_N c) as Hv.
  fold ds in Hd, Hne, Hv.
  assert (Hn : 1 <= n).
  { subst n. destruct ds; [now elim Hne | simpl length; lia]. }
  destruct (Z.leb_spec n 1) as [H1 | H1].
  - replace (1 - n) with 0 by lia.
    change (zeros (Z.to_nat 0)) with (@nil ascii).
    rewrite app_nil_r. cbn [app].
    rewrite dec_of_str_whole by assumption.
    rewrite Hv. do 2 f_equal. lia.
  - destruct (digits_split (Z.to_nat 1) ds Hd) as [Hf Hk].
    rewrite <- app_comm_cons.
    rewrite dec_of_str_fraction; [| assumption | assumption |].
    + rewrite firstn_skipn, Hv, length_skipn. do 2 f_equal. subst n. lia.
    + intro Hnil. apply (f_equal (@length ascii)) in Hnil.
      rewrite length_firstn in Hnil. cbn [length] in Hnil. subst n. lia.
Qed.

Lemma dec_of_str_finite s c e :
  dec_of_str (str_of_dec (Finite s c e)) = Some (Finite s c e).
Proof.
  pose proof (NumberText.str_of_N_digits c) as Hd.
  pose proof (NumberText.str_of_N_nonempty c) as Hne.
  pose proof (NumberText.digits_value_str_of_N c) as Hv.
  cbn [str_of_dec]. rewrite exp_choice.
  set (ds := str_of_N c) in *.
  assert (Hn : 1 <= Z.of_nat (length ds)).
  { destruct ds; [now elim Hne | simpl length; lia]. }
  set (n := Z.of_nat (length ds)) in *.
  destruct (Z.leb_spec e 0) as [He | He];
    [destruct (Z.ltb_spec (-6) (e + n)) as [Hl | Hl]|]; cbn [andb].
  - (* plain notation: the point falls [e + n] digits from the left *)
    destruct (Z.leb_spec (e + n) 0) as [Hz | Hz].
    + replace (e + n - (e + n)) with 0 by lia.
      change (exp_part 0) with (@nil ascii). rewrite app_nil_r.
      rewrite <- (app_nil_r (zeros _ ++ ds)).
      change (@nil ascii) with (exp_part 0) at 2.
      rewrite dec_of_str_fraction;
        [| repeat constructor
         | apply Forall_app; split; [apply zeros_digits | exact Hd]
         | discriminate].
      cbn [app digits_value]. rewrite NumberText.digits_value_app.
      change (10 * 0 + digit_val "0")%N with 0%N.
      rewrite zeros_value, Hv, length_app, zeros_length.
      do 2 f_equal. subst n. lia.
    + destruct (Z.leb_spec n (e + n)) as [Hw | Hw].
      * replace (e + n - n) with 0 by lia.
        replace (e + n - (e + n)) with 0 by lia.
        change (zeros (Z.to_nat 0)) with (@nil ascii).
        rewrite !app_nil_r. cbn [app].
        rewrite <- (app_nil_r ds). change (@nil ascii) with (exp_part 0).
        rewrite dec_of_str_whole by assumption.
        rewrite Hv. do 2 f_equal. lia.
      * replace (e + n - (e + n)) with 0 by lia.
        destruct (digits_split (Z.to_nat (e + n)) ds Hd) as [Hf Hk].
        rewrite <- app_comm_cons.
        rewrite dec_of_str_fraction; [| assumption | assumption |].
        -- rewrite firstn_skipn, Hv, length_skipn. do 2 f_equal. subst n. lia.
        -- intro Hnil. apply (f_equal (@length ascii)) in Hnil.
           rewrite length_firstn in Hnil. cbn [length] in Hnil. subst n. lia.
  - (* too small for plain notation *)
    exact (dec_of_str_scientific s c e).
  - (* a positive exponent *)
    exact (dec_of_str_scientific s c e).
Qed.

Lemma lower_digits ds :
  Forall (fun c => is_digit c = true) ds -> lower ds = ds.
Proof.
  induction 1 as [|c ds Hc _ IH]; simpl; [reflexivity|].
  now rewrite (digit_lower c Hc), IH.
Qed.

Lemma sign_str_plain s : Forall plain (sign_str s).
Proof. destruct s; repeat constructor. Qed.

Lemma lit_plain_NaN (sig : bool) : Forall plain (if sig then lit "sNaN" else lit "NaN").
Proof. destruct sig; repeat constructor. Qed.

(** The diagnostic digits of a NaN: none for 0. *)
Lemma diag_digits diag :
  let ds := if (diag =? 0)%N then [] else str_of_N diag in
  Forall (fun c => is_digit c = true) ds /\ digits_value ds 0 = diag.
Proof.
  destruct (N.eqb_spec diag 0) as [-> | _]; simpl.
  - split; [constructor | reflexivity].
  - split; [apply NumberText.str_of_N_digits
           | apply NumberText.digits_value_str_of_N].
Qed.

Lemma dec_of_str_nan s sig diag :
  dec_of_str (str_of_dec (NaN s sig diag)) = Some (NaN s sig diag).
Proof.
  cbn [str_of_dec]. destruct (diag_digits diag) as [Hd Hv].
  set (ds := if (diag =? 0)%N then [] else str_of_N diag) in *.
  unfold dec_of_str.
  assert (Hall : Forall plain
            (sign_str s ++ (if sig then lit "sNaN" else lit "NaN") ++ ds)).
  { apply Forall_app. split; [apply sign_str_plain|].
    apply Forall_app. split; [apply lit_plain_NaN | now apply digits_plain]. }
  rewrite (strip_plain _ Hall), (remove_underscores_plain _ Hall).
  destruct s, sig; cbn [sign_str lit list_ascii_of_string app parse_sign];
    unfold parse_number; cbn [span_digits app];
    change (is_digit "s") with false; change (is_digit "N") with false;
    cbv iota; cbn [app];
    unfold parse_special; cbn [lower map];
    change (lower_char "s") with "s"%char;
    change (lower_char "N") with "n"%char;
    change (lower_char "a") with "a"%char;
    fold (lower ds); rewrite (lower_digits ds Hd);
    cbn [str_eqb lit list_ascii_of_string];
    change (Ascii.eqb "n" "i") with false;
    change (Ascii.eqb "s" "i") with false;
    cbn [andb orb]; cbv iota;
    unfold parse_nan; rewrite (span_digits_all ds Hd), Hv; reflexivity.
Qed.

Lemma dec_of_str_infinity s :
  dec_of_str (str_of_dec (Infinity s)) = Some (Infinity s).
Proof. now destruct s. Qed.

(** Reading the text of a decimal gives the decimal back. *)
Lemma dec_of_str_of_dec d : dec_of_str (str_of_dec d) = Some d.
Proof.
  destruct d as [s c e | s | s sig diag].
  - apply dec_of_str_finite.
  - apply dec_of_str_infinity.
  - apply dec_of_str_nan.
Qed.

(** The text of a decimal has no whitespace, underscore or comma. *)
Lemma str_of_dec_plain d : Forall plain (str_of_dec d).
Proof.
  destruct d as [s c e | s | s sig diag]; cbn [str_of_dec].
  - pose proof (digits_plain _ (NumberText.str_of_N_digits c)) as Hd.
    set (ds := str_of_N c) in *.
    set (n := Z.of_nat (length ds)).
    set (dp := if (e <=? 0) && (-6 <? e + n) then e + n else 1).
    assert (Hz : forall k, Forall plain (zeros k))
      by (intro k; apply digits_plain, zeros_digits).
    assert (Hsplit : Forall plain (firstn (Z.to_nat dp) ds) /\
                     Forall plain (skipn (Z.to_nat dp) ds)).
    { rewrite <- (firstn_skipn (Z.to_nat dp) ds) in Hd.
      now apply Forall_app in Hd. }
    destruct Hsplit as [Hf Hk].
    repeat (apply Forall_app; split).
    + apply sign_str_plain.
    + destruct (dp <=? 0); [repeat constructor|].
      destruct (n <=? dp); [|exact Hf].
      apply Forall_app. split; [exact Hd | apply Hz].
    + destruct (dp <=? 0).
      * constructor; [exact dot_plain|].
        apply Forall_app. split; [apply Hz | exact Hd].
      * destruct (n <=? dp); [constructor|].
        constructor; [exact dot_plain | exact Hk].
    + destruct (e + n =? dp); [constructor | apply exp_str_plain].
  - apply Forall_app. split; [apply sign_str_plain | repeat constructor].
  - destruct (diag_digits diag) as [Hd _].
    apply Forall_app. split; [apply sign_str_plain|].
    apply Forall_app. split; [apply lit_plain_NaN | now apply digits_plain].
Qed.

End DecimalRoundTrip.

(** ** Records *)

Module RecordFacts.
Import TextFacts.

Lemma str_eqb_eq a : forall b, str_eqb a b = true -> a = b.
Proof.
  induction a as [|c a IH]; intros [|d b]; simpl; try discriminate;
    [reflexivity|].
  intro H. apply andb_true_iff in H. destruct H as [Hc Hs].
  apply Ascii.eqb_eq in Hc. apply IH in Hs. now subst.
Qed.

(** The three type codes. *)
Lemma type_known_cases k :
  type_known k = true -> k = lit "AL" \/ k = lit "DL" \/ k = lit "FRL".
Proof.
  unfold type_known, PRODUCT_TYPES. cbn [existsb fst].
  intro H. repeat (apply orb_true_iff in H; destruct H as [H | H]);
    try discriminate; apply str_eqb_eq in H; auto.
Qed.

Lemma type_code_plain k : type_known k = true -> Forall plain k.
Proof.
  intro H. destruct (type_known_cases k H) as [-> | [-> | ->]];
    repeat constructor.
Qed.

(** [upper] against Python's [upper]: character by character they agree on
    ASCII, and beyond ASCII the capital form holds a character beyond ASCII
    or is [SS]. *)
Lemma upper_points_cases c :
  ((code c < 128)%N /\ upper_points c = [code (upper_char c)]) \/
  ((128 <= code c)%N /\ upper_char c = c /\
   (upper_points c = [83%N; 83%N] \/
    exists n, upper_points c = [n] /\ (128 <= n)%N)).
Proof.
  destruct c as [[] [] [] [] [] [] [] []];
    first
      [ left; split; reflexivity
      | right; split; [vm_compute; discriminate|];
        split; [reflexivity|];
        first [ left; reflexivity
              | right; eexists; split;
                [reflexivity | vm_compute; discriminate] ] ].
Qed.

Lemma code_inj c d : code c = code d -> c = d.
Proof.
  unfold code. intro H. apply (f_equal ascii_of_N) in H.
  now rewrite !ascii_N_embedding in H.
Qed.

(** A text has the capital form [k], made of ASCII characters other than
    [S], exactly when [upper] gives [k]. *)
Lemma upper_full_agrees t : forall k,
  Forall (fun d => (code d < 128)%N /\ code d <> 83%N) k ->
  upper_full t = map code k <-> upper t = k.
Proof.
  induction t as [|c t IH]; intros k Hk.
  - destruct k; simpl; split; congruence.
  - cbn [upper_full flat_map upper map].
    fold (upper_full t). fold (upper t).
    destruct (upper_points_cases c) as [[Hlt Hup] | (Hge & Hsame & Hup)].
    + rewrite Hup. cbn [app].
      destruct k as [|d k]; [split; discriminate|].
      apply Forall_cons_iff in Hk. destruct Hk as [_ Hk].
      specialize (IH k Hk). cbn [map]. split.
      * intros [= Hc Ht]. apply code_inj in Hc. subst d.
        f_equal. now apply IH.
      * intros [= <- Ht]. f_equal. now apply IH.
    + destruct k as [|d k].
      * split; [|discriminate].
        destruct Hup as [-> | (n & -> & _)]; discriminate.
      * apply Forall_cons_iff in Hk. destruct Hk as [[Hd Hs] _]. split.
        -- destruct Hup as [-> | (n & -> & Hn)]; cbn [app map];
             intros [= Hc _]; [congruence | lia].
        -- rewrite Hsame. intros [= <- _]. lia.
Qed.

(** The test of the constructor, [tipo.upper() in PRODUCT_TYPES], is the
    test that the capital form Python gives is a key, and the code stored
    is that capital form. *)
Lemma type_known_upper_full t :
  type_known (upper t) = true <->
  exists k, type_known k = true /\ upper_full t = map code k.
Proof.
  assert (Hkey : forall k, type_known k = true ->
            Forall (fun d => (code d < 128)%N /\ code d <> 83%N) k).
  { intros k H. destruct (type_known_cases k H) as [-> | [-> | ->]];
      repeat constructor; discriminate. }
  split.
  - intro H. exists (upper t). split; [exact H|].
    now apply upper_full_agrees; [apply Hkey|].
  - intros (k & Hk & Hup).
    apply (upper_full_agrees t k (Hkey k Hk)) in Hup. now rewrite Hup.
Qed.

Lemma upper_char_idem c : upper_char (upper_char c) = upper_char c.
Proof. by_chars c. Qed.

Lemma upper_idem s : upper (upper s) = upper s.
Proof.
  unfold upper. rewrite map_map. apply map_ext. exact upper_char_idem.
Qed.

Lemma init_upper id_ nome tipo quantidade preco :
  Produto.init id_ nome (upper tipo) quantidade preco
  = Produto.init id_ nome tipo quantidade preco.
Proof. unfold Produto.init. now rewrite upper_idem. Qed.

(** The fields of a serialized Product, when the name has no comma. *)
Lemma split_string p :
  no_comma (Produto.nome p) -> type_known (Produto.tipo p) = true ->
  split comma (Produto.string p)
  = [ str_of_int (Produto.id p); Produto.nome p; Produto.tipo p;
      str_of_int (Produto.quantidade p); str_of_dec (Produto.preco p) ].
Proof.
  intros Hnome Htipo. unfold Produto.string.
  rewrite split_field by apply plain_no_comma, str_of_int_plain.
  rewrite split_field by exact Hnome.
  rewrite split_field by now apply plain_no_comma, type_code_plain.
  rewrite split_field by apply plain_no_comma, str_of_int_plain.
  rewrite split_no_comma
    by apply plain_no_comma, DecimalRoundTrip.str_of_dec_plain.
  reflexivity.
Qed.

Lemma nth_error_firstn_lt {A : Type} (l : list A) i n :
  (i < n)%nat -> nth_error (firstn n l) i = nth_error l i.
Proof.
  revert l n. induction i as [|i IH]; intros [|a l] [|n] H; simpl;
    try reflexivity; try lia.
  apply IH. lia.
Qed.

(** [from_csv] looks at the first five fields only. *)
Lemma from_csv_first_five txt txt' :
  firstn 5 (split comma txt) = firstn 5 (split comma txt') ->
  Produto.from_csv txt = Produto.from_csv txt'.
Proof.
  intro H. unfold Produto.from_csv, getitem.
  rewrite <- !(nth_error_firstn_lt (split comma txt) _ 5) by lia.
  rewrite H.
  now rewrite !(nth_error_firstn_lt (split comma txt') _ 5) by lia.
Qed.

End RecordFacts.

(** C1, as the code has it. For a Product [p] accepted by the constructor
    whose name has no comma and no leading or trailing whitespace,
    [from_csv] reads the text of [Produto.string] and returns a Product
    equal to [p] in its five fields. *)
Theorem from_csv_string_roundtrip (id_ : Z) (nome tipo : str)
    (quantidade : Z) (preco : dec) (p : Produto.t)
    (Hp : Produto.init id_ nome tipo quantidade preco = Ok p)
    (Hcomma : no_comma (Produto.nome p))
    (Htrim : strip (Produto.nome p) = Produto.nome p) :
  Produto.from_csv (Produto.string p) = Ok p.
Proof.
  pose proof (ProdutoFacts.init_ok_inv _ _ _ _ _ _ Hp)
    as (_ & _ & _ & Ht & _ & _ & Heq).
  assert (Htipo : type_known (Produto.tipo p) = true) by now subst p.
  unfold Produto.from_csv.
  rewrite (RecordFacts.split_string p Hcomma Htipo).
  unfold getitem, py_int, py_dec. cbn [nth_error of_option bind].
  rewrite !TextFacts.int_of_str_of_int. cbn [of_option bind].
  rewrite DecimalRoundTrip.dec_of_str_of_dec. cbn [of_option bind].
  rewrite Htrim, (TextFacts.strip_plain _ (RecordFacts.type_code_plain _ Htipo)).
  subst p. cbn [Produto.id Produto.nome Produto.tipo Produto.quantidade
                Produto.preco].
  rewrite RecordFacts.init_upper. exact Hp.
Qed.

(** C5, as the code has it. A record with fewer than five fields, or whose
    id, quantity or price field is not a number, makes [from_csv] raise
    [ValueError], [IndexError] or the [decimal] module's
    [InvalidOperation]: never an [InvalidProdAttribute], which is the
    subclass of [ValueError] and not its base. And, of every record, the
    fields after the fifth are not looked at: two records with the same
    first five fields are read alike. *)
Theorem from_csv_malformed :
  (forall txt,
     (length (split comma txt) < 5)%nat \/
     (exists a, nth_error (split comma txt) 0 = Some a /\ int_of_str a = None) \/
     (exists a, nth_error (split comma txt) 3 = Some a /\ int_of_str a = None) \/
     (exists a, nth_error (split comma txt) 4 = Some a /\ dec_of_str a = None) ->
     exists e,
       Produto.from_csv txt = Raise e /\
       (e = ValueError \/ e = IndexError \/ e = DecimalInvalidOperation) /\
       caught_by e cls_InvalidProdAttribute = false) /\
  issubclass cls_InvalidProdAttribute cls_ValueError = true /\
  issubclass cls_ValueError cls_InvalidProdAttribute = false /\
  (forall txt txt',
     firstn 5 (split comma txt') = firstn 5 (split comma txt) ->
     Produto.from_csv txt' = Produto.from_csv txt).
Proof.
  split;
    [| split; [reflexivity | split; [reflexivity |]];
       intros txt txt' H'; now apply RecordFacts.from_csv_first_five].
  intros txt H.
  unfold Produto.from_csv, getitem, py_int, py_dec.
  set (attrs := split comma txt) in *.
  destruct (nth_error attrs 0) as [a0|] eqn:E0; cbn [of_option bind];
    [|exists IndexError; auto].
  destruct (int_of_str a0) as [i|] eqn:I0; cbn [of_option bind];
    [|exists ValueError; auto].
  destruct (nth_error attrs 1) as [a1|] eqn:E1; cbn [of_option bind];
    [|exists IndexError; auto].
  destruct (nth_error attrs 2) as [a2|] eqn:E2; cbn [of_option bind];
    [|exists IndexError; auto].
  destruct (nth_error attrs 3) as [a3|] eqn:E3; cbn [of_option bind];
    [|exists IndexError; auto].
  destruct (int_of_str a3) as [q|] eqn:I3; cbn [of_option bind];
    [|exists ValueError; auto].
  destruct (nth_error attrs 4) as [a4|] eqn:E4; cbn [of_option bind];
    [|exists IndexError; auto].
  destruct (dec_of_str a4) as [pr|] eqn:D4; cbn [of_option bind];
    [|exists DecimalInvalidOperation; auto].
  exfalso. destruct H as [H | [[a [Ha Hn]] | [[a [Ha Hn]] | [a [Ha Hn]]]]].
  - assert (nth_error attrs 4 = None) by (apply nth_error_None; lia).
    congruence.
  - congruence.
  - congruence.
  - congruence.
Qed.

(** ** Saving the catalogue *)

(** On a collection that has not been saved yet, [grava] returns the
    records of the members, each followed by a line break. *)
Lemma grava_first_call (c : t) :
  list_ c = [] -> fst (grava c) = Ok (records_text (iter c)).
Proof. intro H. rewrite CollectionFacts.grava_spec, H. reflexivity. Qed.

(** Each further call returns what the previous one returned, and the
    records once more. *)
Lemma grava_accumulates (c : t) :
  fst (grava (snd (grava c)))
  = Ok (list_ c ++ records_text (iter c) ++ records_text (iter c)).
Proof.
  rewrite !CollectionFacts.grava_spec. simpl. now rewrite <- app_assoc.
Qed.

(** C2. [grava] at work on the catalogue of one product: the first call
    returns its record and a line break, the second call returns the record
    twice, and after the product is deleted the now empty collection still
    serializes to that text. *)
Theorem grava_repeats_saved_text :
  let c := snd (append morangos init) in
  let registo := Produto.string morangos ++ [newline] in
  fst (grava c) = Ok registo /\
  fst (grava (snd (grava c))) = Ok (registo ++ registo) /\
  registo ++ registo <> records_text (iter (snd (grava c))) /\
  let vazio := snd (eliminar 40001 (snd (grava c))) in
  iter vazio = [] /\ fst (grava vazio) = Ok registo /\ registo <> [].
Proof.
  cbv zeta. repeat split; try reflexivity; vm_compute; discriminate.
Qed.

(** ** Inputs that the parser and the constructor treat differently *)

(** C1 does not hold for every name: a name with a leading blank comes back
    trimmed, and a name with a comma shifts the fields, so that the record
    is not read. *)
Lemma roundtrip_loses_name :
  (exists p,
     Produto.init 40001 (lit " a") (lit "FRL") 1 preco_1_5 = Ok p /\
     Produto.from_csv (Produto.string p)
     = Ok (Produto.mk 40001 (lit "a") (lit "FRL") 1 preco_1_5) /\
     Produto.from_csv (Produto.string p) <> Ok p) /\
  (exists p,
     Produto.init 40001 (lit "a,b") (lit "FRL") 1 preco_1_5 = Ok p /\
     Produto.from_csv (Produto.string p) = Raise ValueError).
Proof.
  split; eexists; repeat split; try reflexivity.
  vm_compute. discriminate.
Qed.

(** C4 does not hold for the constructor: it keeps a name made of blanks. *)
Lemma init_keeps_blank_name :
  strip (lit "  ") = [] /\
  Produto.init 40001 (lit "  ") (lit "FRL") 1 preco_1_5
  = Ok (Produto.mk 40001 (lit "  ") (lit "FRL") 1 preco_1_5).
Proof. split; reflexivity. Qed.

(** C5 does not hold for every record: one of six fields is read, one of four fields
    raises [IndexError], which no [except ValueError] catches, a price that
    is not a number raises the [decimal] module's error, which neither
    [except ValueError] nor the program's own [InvalidOperation] catches. *)
Lemma from_csv_reads_six_fields :
  length (split comma (lit "40001,morangos,FRL,100,1.5,extra")) = 6%nat /\
  Produto.from_csv (lit "40001,morangos,FRL,100,1.5,extra") = Ok morangos /\
  length (split comma (lit "40001,morangos,FRL,100")) = 4%nat /\
  Produto.from_csv (lit "40001,morangos,FRL,100") = Raise IndexError /\
  caught_by IndexError cls_ValueError = false /\
  Produto.from_csv (lit "40001,morangos,FRL,100,x") = Raise DecimalInvalidOperation /\
  caught_by DecimalInvalidOperation cls_ValueError = false /\
  caught_by DecimalInvalidOperation cls_InvalidOperation = false.
Proof. repeat split; reflexivity. Qed.

(** ** The theorems at work *)

Lemma from_csv_string_roundtrip_witness :
  Produto.from_csv (Produto.string morangos) = Ok morangos.
Proof.
  apply (from_csv_string_roundtrip 40001 (lit "morangos") (lit "frl") 100
           preco_1_5 morangos).
  - reflexivity.
  - repeat constructor.
  - reflexivity.
Defined.

Lemma init_accepts_valid_witness :
  exists p,
    Produto.init 40001 (lit "morangos") (lit "frl") 100 preco_1_5 = Ok p /\
    Produto.id p = 40001 /\ Produto.nome p = lit "morangos" /\
    Produto.tipo p = upper (lit "frl") /\
    Produto.quantidade p = 100 /\ Produto.preco p = preco_1_5.
Proof.
  apply (init_accepts_valid 40001 (lit "morangos") (lit "frl") 100 preco_1_5).
  - split; [lia | reflexivity].
  - discriminate.
  - reflexivity.
  - lia.
  - right. reflexivity.
Defined.

Lemma empty_name_rejected_witness :
  exists e, Produto.from_csv (lit "40001,  ,FRL,100,1.5") = Raise e.
Proof.
  apply (proj2 empty_name_rejected (lit "40001,  ,FRL,100,1.5") (lit "  "));
    reflexivity.
Defined.

Lemma from_csv_malformed_witness :
  (exists e,
     Produto.from_csv (lit "40001,morangos,FRL,cem,1.5") = Raise e /\
     (e = ValueError \/ e = IndexError \/ e = DecimalInvalidOperation) /\
     caught_by e cls_InvalidProdAttribute = false) /\
  Produto.from_csv (lit "40001,morangos,FRL,100,1.5,extra")
  = Produto.from_csv (lit "40001,morangos,FRL,100,1.5").
Proof.
  split.
  - apply (proj1 from_csv_malformed (lit "40001,morangos,FRL,cem,1.5")).
    right. right. left. exists (lit "cem"). split; reflexivity.
  - apply (proj2 (proj2 (proj2 from_csv_malformed))
             (lit "40001,morangos,FRL,100,1.5")
             (lit "40001,morangos,FRL,100,1.5,extra")).
    reflexivity.
Defined.

Lemma append_duplicate_rejected_witness :
  append framboesas catalogo
  = (Raise (DuplicateValue (Produto.id framboesas)), catalogo) /\
  pesquisa_por_id (Produto.id morangos) (snd (append framboesas catalogo))
  = Some morangos.
Proof.
  apply (append_duplicate_rejected catalogo morangos framboesas); reflexivity.
Defined.

Lemma catalogo_keys : NoDup (dict_keys (_prods catalogo)).
Proof.
  apply CollectionFacts.reachable_well_keyed.
  unfold catalogo. apply reach_append, reach_append, reach_init.
Qed.

Lemma eliminar_keyed_by_id_witness :
  (pesquisa_por_id 40001 catalogo <> None ->
   exists c',
     eliminar 40001 catalogo = (Ok tt, c') /\
     _prods c' = filter (fun kv => negb (fst kv =? 40001)) (_prods catalogo) /\
     list_ c' = list_ catalogo /\
     pesquisa_por_id 40001 c' = None /\
     (forall k', k' <> 40001 ->
        pesquisa_por_id k' c' = pesquisa_por_id k' catalogo) /\
     eliminar 40001 c' = (Raise (FileNotFound 40001), c')) /\
  (pesquisa_por_id 40001 catalogo = None ->
   eliminar 40001 catalogo = (Raise (FileNotFound 40001), catalogo)).
Proof. exact (eliminar_keyed_by_id catalogo 40001 catalogo_keys). Defined.

Lemma pesquisa_selects_witness :
  exists r,
    pesquisa (fun p => Produto.quantidade p <? 10) catalogo = (Ok r, catalogo) /\
    iter r = filter (fun p => Produto.quantidade p <? 10) (iter catalogo) /\
    (forall k m,
       pesquisa_por_id k r = Some m <->
       pesquisa_por_id k catalogo = Some m /\
       (Produto.quantidade m <? 10) = true) /\
    (forall m, In m (iter r) -> pesquisa_por_id (Produto.id m) r = Some m).
Proof.
  apply (pesquisa_selects (fun p => Produto.quantidade p <? 10) catalogo).
  apply CollectionFacts.reachable_well_keyed.
  unfold catalogo. apply reach_append, reach_append, reach_init.
Defined.

Lemma reachable_ids_unique_witness : NoDup (ids catalogo).
Proof.
  apply (reachable_ids_unique catalogo).
  unfold catalogo. apply reach_append, reach_append, reach_init.
Defined.

Lemma nome_tipo_defined_witness :
  type_known (Produto.tipo morangos) = true /\
  exists s, Produto.nome_tipo morangos = Ok s.
Proof.
  apply (nome_tipo_defined 40001 (lit "morangos") (lit "frl") 100 preco_1_5).
  reflexivity.
Defined.

(** * Further properties of the program *)

(** ** Trimming and splitting *)

Module Trimming.
Import TextFacts.

Section Classes.
Variable sp : ascii -> bool.

Lemma drop_while_decomp s :
  exists pre,
    s = pre ++ drop_while sp s /\ Forall (fun c => sp c = true) pre.
Proof.
  induction s as [|c s [pre [Hs Hpre]]]; simpl.
  - exists []. split; [reflexivity | constructor].
  - destruct (sp c) eqn:Hc.
    + exists (c :: pre). split; [simpl; now f_equal | now constructor].
    + exists []. split; [reflexivity | constructor].
Qed.

Lemma drop_while_head s c r : drop_while sp s = c :: r -> sp c = false.
Proof.
  induction s as [|d s IH]; simpl; [discriminate|].
  destruct (sp d) eqn:Hd; [exact IH|]. now intros [= <- _].
Qed.

Lemma drop_while_idem s : drop_while sp (drop_while sp s) = drop_while sp s.
Proof.
  destruct (drop_while sp s) as [|c r] eqn:E; [reflexivity|].
  simpl. now rewrite (drop_while_head s c r E).
Qed.

Lemma drop_while_all pre s :
  Forall (fun c => sp c = true) pre ->
  drop_while sp (pre ++ s) = drop_while sp s.
Proof.
  induction 1 as [|c pre Hc _ IH]; simpl; [reflexivity|]. now rewrite Hc.
Qed.

Lemma drop_while_app a b :
  drop_while sp a <> [] -> drop_while sp (a ++ b) = drop_while sp a ++ b.
Proof.
  induction a as [|c a IH]; simpl; [intro H; now elim H|].
  destruct (sp c); [exact IH | reflexivity].
Qed.

Lemma drop_while_nil_app a b :
  drop_while sp a = [] -> drop_while sp (a ++ b) = drop_while sp b.
Proof.
  intro H. destruct (drop_while_decomp a) as [pre [Ha Hpre]].
  rewrite H, app_nil_r in Ha. subst pre. now apply drop_while_all.
Qed.

(** What [strip_of] returns starts and ends with a character outside the
    class, so that trimming it again changes nothing. *)
Lemma strip_of_idem s : strip_of sp (strip_of sp s) = strip_of sp s.
Proof.
  unfold strip_of.
  set (u := drop_while sp s).
  destruct (drop_while_decomp (rev u)) as [pre [Hu Hpre]].
  set (v := drop_while sp (rev u)) in *.
  assert (Hhead : drop_while sp (rev v) = rev v).
  { apply (f_equal (@rev ascii)) in Hu.
    rewrite rev_involutive, rev_app_distr in Hu.
    destruct (rev v) as [|c t] eqn:Ev; [reflexivity|].
    simpl in Hu. simpl.
    assert (Hc : sp c = false).
    { apply (drop_while_head s c (t ++ rev pre)). now fold u. }
    now rewrite Hc. }
  rewrite Hhead, rev_involutive. unfold v. now rewrite drop_while_idem.
Qed.

Lemma strip_of_cons c s : sp c = true -> strip_of sp (c :: s) = strip_of sp s.
Proof. intro Hc. unfold strip_of. simpl. now rewrite Hc. Qed.

Lemma strip_of_snoc s c : sp c = true -> strip_of sp (s ++ [c]) = strip_of sp s.
Proof.
  intro Hc. unfold strip_of.
  destruct (drop_while sp s) as [|d r] eqn:E.
  - rewrite (drop_while_nil_app s [c] E). simpl. now rewrite Hc.
  - rewrite drop_while_app by (rewrite E; discriminate).
    rewrite E, rev_app_distr. simpl rev at 1. simpl app.
    cbn [drop_while]. now rewrite Hc.
Qed.

Lemma drop_while_Forall (P : ascii -> Prop) s :
  Forall P s -> Forall P (drop_while sp s).
Proof.
  induction 1 as [|c s Hc Hs IH]; simpl; [constructor|].
  destruct (sp c); [exact IH | now constructor].
Qed.

(** Trimming removes characters and adds none. *)
Lemma strip_of_Forall (P : ascii -> Prop) s :
  Forall P s -> Forall P (strip_of sp s).
Proof.
  intro H. unfold strip_of.
  apply Forall_rev, drop_while_Forall, Forall_rev, drop_while_Forall, H.
Qed.

Lemma strip_of_head c s : sp c = false -> strip_of sp (c :: s) <> [].
Proof.
  intro Hc. unfold strip_of. simpl drop_while. rewrite Hc.
  assert (H : forall a, drop_while sp (a ++ [c]) <> []).
  { induction a as [|d a IH]; simpl; [rewrite Hc; discriminate|].
    destruct (sp d); [exact IH | discriminate]. }
  simpl rev at 2. intro Hnil.
  apply (f_equal (@rev ascii)) in Hnil. rewrite rev_involutive in Hnil.
  now apply (H (rev s)).
Qed.

(** What is trimmed is the text between a prefix and a suffix within the
    class. *)
Lemma strip_of_decomp s :
  exists pre suf,
    s = pre ++ strip_of sp s ++ suf /\
    Forall (fun c => sp c = true) pre /\ Forall (fun c => sp c = true) suf.
Proof.
  unfold strip_of.
  destruct (drop_while_decomp s) as [pre [Hs Hpre]].
  destruct (drop_while_decomp (rev (drop_while sp s))) as [fus [Hr Hfus]].
  exists pre, (rev fus). split; [|split; [exact Hpre | now apply Forall_rev]].
  rewrite <- rev_app_distr, <- Hr, rev_involutive. exact Hs.
Qed.

Lemma strip_of_around pre m suf :
  Forall (fun c => sp c = true) pre -> Forall (fun c => sp c = true) suf ->
  strip_of sp (pre ++ m ++ suf) = strip_of sp m.
Proof.
  intros Hpre Hsuf.
  induction Hpre as [|c pre Hc _ IH]; cbn [app];
    [|now rewrite strip_of_cons].
  induction suf as [|c suf IH] using rev_ind; [now rewrite app_nil_r|].
  apply Forall_app in Hsuf. destruct Hsuf as [Hsuf Hc].
  apply Forall_cons_iff in Hc. destruct Hc as [Hc _].
  rewrite app_assoc, strip_of_snoc by exact Hc. now apply IH.
Qed.

End Classes.

(** Trimming with a wider class after a narrower one is trimming with the
    wider class. *)
Lemma strip_of_absorbs (sp sp' : ascii -> bool) s :
  (forall c, sp c = true -> sp' c = true) ->
  strip_of sp' (strip_of sp s) = strip_of sp' s.
Proof.
  intro Hsub.
  destruct (strip_of_decomp sp s) as (pre & suf & Hs & Hpre & Hsuf).
  assert (Hpre' : Forall (fun c => sp' c = true) pre)
    by (revert Hpre; apply Forall_impl; exact Hsub).
  assert (Hsuf' : Forall (fun c => sp' c = true) suf)
    by (revert Hsuf; apply Forall_impl; exact Hsub).
  rewrite Hs at 2. now rewrite strip_of_around.
Qed.

Lemma strip_idem s : strip (strip s) = strip s.
Proof. apply strip_of_idem. Qed.

Lemma strip_cons_space c s : is_space c = true -> strip (c :: s) = strip s.
Proof. apply strip_of_cons. Qed.

Lemma strip_snoc_space s c : is_space c = true -> strip (s ++ [c]) = strip s.
Proof. apply strip_of_snoc. Qed.

Lemma strip_Forall (P : ascii -> Prop) s : Forall P s -> Forall P (strip s).
Proof. apply strip_of_Forall. Qed.

Lemma strip_nonspace_head c s : is_space c = false -> strip (c :: s) <> [].
Proof. apply strip_of_head. Qed.

Lemma strip_int_strip s : strip (strip_of is_int_space s) = strip s.
Proof. apply strip_of_absorbs. exact int_space_space. Qed.

(** [int] and [Decimal] trim their argument themselves, each in its way:
    [int] does not read a number between separators U+001C to U+001F, which
    [strip] removes and [Decimal] skips. *)
Lemma int_of_str_int_strip s :
  int_of_str (strip_of is_int_space s) = int_of_str s.
Proof. unfold int_of_str. now rewrite strip_of_idem. Qed.

Lemma dec_of_str_strip s : dec_of_str (strip s) = dec_of_str s.
Proof. unfold dec_of_str. now rewrite strip_idem. Qed.

Lemma dec_of_str_int_strip s :
  dec_of_str (strip_of is_int_space s) = dec_of_str s.
Proof. unfold dec_of_str. now rewrite strip_int_strip. Qed.

(** *** Fields *)

Lemma split_fields_no_delim d s :
  Forall (Forall (fun c => Ascii.eqb c d = false)) (split d s).
Proof.
  induction s as [|c s IH]; simpl; [repeat constructor|].
  destruct (Ascii.eqb c d) eqn:Hc; [now constructor|].
  destruct (split d s) as [|f fs]; [repeat constructor; assumption|].
  apply Forall_cons_iff in IH. destruct IH as [Hf Hfs].
  constructor; [now constructor | assumption].
Qed.

Lemma split_piece d a b :
  Forall (fun c => Ascii.eqb c d = false) a ->
  split d (a ++ d :: b) = a :: split d b.
Proof.
  induction 1 as [|c a Hc _ IH]; simpl.
  - now rewrite Ascii.eqb_refl.
  - now rewrite Hc, IH.
Qed.

Lemma split_whole d s :
  Forall (fun c => Ascii.eqb c d = false) s -> split d s = [s].
Proof.
  induction 1 as [|c s Hc _ IH]; simpl; [reflexivity|]. now rewrite Hc, IH.
Qed.

Lemma split_not_nil d s : split d s <> [].
Proof.
  destruct s as [|x s]; simpl; [discriminate|].
  destruct (Ascii.eqb x d); [discriminate|].
  destruct (split d s); discriminate.
Qed.

Lemma split_snoc d c s :
  Ascii.eqb c d = false -> split d (s ++ [c]) = snoc_last (split d s) c.
Proof.
  intro Hc. induction s as [|x s IH]; simpl; [now rewrite Hc|].
  rewrite IH. pose proof (split_not_nil d s) as Hne.
  destruct (split d s) as [|f [|g fs]]; [now elim Hne | |];
    destruct (Ascii.eqb x d); reflexivity.
Qed.


End Trimming.

(** ** The constructor and the parser, further *)

Module ParserFacts.
Import TextFacts Trimming.

Lemma py_int_int_strip s : py_int (strip_of is_int_space s) = py_int s.
Proof. unfold py_int. now rewrite int_of_str_int_strip. Qed.

Lemma py_dec_strip s : py_dec (strip s) = py_dec s.
Proof. unfold py_dec. now rewrite dec_of_str_strip. Qed.

(** [from_csv] reads the record through its first five fields, trimmed. *)
Lemma from_csv_campos txt : Produto.from_csv txt = from_campos (campos txt).
Proof.
  unfold Produto.from_csv, from_campos, campos, getitem.
  destruct (split comma txt) as [|a0 [|a1 [|a2 [|a3 [|a4 rest]]]]];
    cbn [aparas aparar nth_error of_option bind];
    rewrite ?py_int_int_strip, ?py_dec_strip; reflexivity.
Qed.

(** The name that [from_csv] passes on: trimmed, and without a comma. *)
Lemma nome_trimmed txt a1 :
  nth_error (split comma txt) 1 = Some a1 ->
  strip (strip a1) = strip a1 /\ no_comma (strip a1).
Proof.
  intro E1. split; [apply strip_idem|].
  apply strip_Forall.
  pose proof (split_fields_no_delim comma txt) as H.
  rewrite Forall_forall in H. apply H. now apply nth_error_In in E1.
Qed.

Lemma constructed_of_init id_ nome tipo quantidade preco p :
  Produto.init id_ nome tipo quantidade preco = Ok p -> constructed p.
Proof.
  intro Hp. pose proof (ProdutoFacts.init_ok_inv _ _ _ _ _ _ Hp)
    as (_ & _ & _ & _ & _ & _ & Heq).
  unfold constructed. rewrite Heq. simpl.
  rewrite RecordFacts.init_upper. now rewrite <- Heq.
Qed.

Lemma dec_lt_zero_ge d : dec_lt_zero d = Ok false -> dec_ge_zero d.
Proof.
  unfold dec_lt_zero, dec_ge_zero.
  destruct (dec_cmp_zero d) as [[| |]|]; simpl; intro H;
    try discriminate; auto.
Qed.

(** The text of a constructed Product, read back. *)
Lemma from_csv_string_constructed p :
  constructed p -> no_comma (Produto.nome p) ->
  strip (Produto.nome p) = Produto.nome p ->
  Produto.from_csv (Produto.string p) = Ok p.
Proof.
  intros Hp Hcomma Htrim.
  pose proof (ProdutoFacts.init_ok_inv _ _ _ _ _ _ Hp)
    as (_ & _ & _ & Ht & _ & _ & Heq).
  assert (Htipo : type_known (Produto.tipo p) = true).
  { rewrite Heq. exact Ht. }
  unfold Produto.from_csv.
  rewrite (RecordFacts.split_string p Hcomma Htipo).
  unfold getitem, py_int, py_dec. cbn [nth_error of_option bind].
  rewrite !int_of_str_of_int. cbn [of_option bind].
  rewrite DecimalRoundTrip.dec_of_str_of_dec. cbn [of_option bind].
  rewrite Htrim, (strip_plain _ (RecordFacts.type_code_plain _ Htipo)).
  exact Hp.
Qed.

(** What a successful construction tells, with the id as a range. *)
Lemma init_ok_conditions id_ nome tipo quantidade preco p :
  Produto.init id_ nome tipo quantidade preco = Ok p ->
  10000 <= id_ <= 99999 /\ nome <> [] /\ type_known (upper tipo) = true /\
  0 <= quantidade /\ dec_ge_zero preco /\
  p = Produto.mk id_ nome (upper tipo) quantidade preco.
Proof.
  intro Hp. apply ProdutoFacts.init_ok_inv in Hp.
  destruct Hp as (Hid & Hlen & Hn & Ht & Hq & Hpr & Heq).
  assert (10000 <= id_ <= 99999)
    by (apply ProdutoFacts.id_five_digits; now split).
  repeat split; try assumption; try lia.
  now apply dec_lt_zero_ge.
Qed.

End ParserFacts.

(** X1. The constructor returns a Product exactly when the id lies between
    10000 and 99999, the name is not empty, the type code in upper case is
    known, and quantity and price are not negative; the Product then holds
    the arguments, the type code in upper case. *)
Theorem init_accepts_exactly (id_ : Z) (nome tipo : str) (quantidade : Z)
    (preco : dec) (p : Produto.t) :
  Produto.init id_ nome tipo quantidade preco = Ok p <->
  10000 <= id_ <= 99999 /\ nome <> [] /\ type_known (upper tipo) = true /\
  0 <= quantidade /\ dec_ge_zero preco /\
  p = Produto.mk id_ nome (upper tipo) quantidade preco.
Proof.
  split.
  - apply ParserFacts.init_ok_conditions.
  - intros (Hid & Hn & Ht & Hq & Hpr & ->).
    apply ProdutoFacts.id_five_digits in Hid. destruct Hid as [Hid Hlen].
    unfold Produto.init.
    destruct (Z.ltb_spec id_ 0) as [Hlt | _]; [lia|].
    rewrite Hlen, Ht. simpl.
    destruct nome as [|c nome]; [now elim Hn|].
    destruct (Z.ltb_spec quantidade 0) as [Hlt | _]; [lia|].
    now rewrite (ProdutoFacts.dec_ge_zero_lt preco Hpr).
Qed.

(** X2. When the constructor fails it raises [InvalidProdAttribute], but
    for one case: a NaN price with the other four arguments valid raises the
    [decimal] module's [InvalidOperation], which is no [ValueError]. *)
Theorem init_failure_kinds (id_ : Z) (nome tipo : str) (quantidade : Z)
    (preco : dec) (e : exn) :
  Produto.init id_ nome tipo quantidade preco = Raise e <->
  (e = InvalidProdAttribute attr_id /\ ~ 10000 <= id_ <= 99999) \/
  (10000 <= id_ <= 99999 /\
   ((e = InvalidProdAttribute attr_nome /\ nome = []) \/
    (nome <> [] /\
     ((e = InvalidProdAttribute attr_tipo /\ type_known (upper tipo) = false) \/
      (type_known (upper tipo) = true /\
       ((e = InvalidProdAttribute attr_quantidade /\ quantidade < 0) \/
        (0 <= quantidade /\
         ((e = InvalidProdAttribute attr_preco /\ dec_cmp_zero preco = Some Lt) \/
          (e = DecimalInvalidOperation /\ dec_cmp_zero preco = None /\
           caught_by e cls_ValueError = false))))))))).
Proof.
  pose proof (ProdutoFacts.id_five_digits id_) as Hfive.
  unfold Produto.init.
  destruct (Z.ltb_spec id_ 0) as [Hlt | Hge]; cbn [orb].
  { split; [intros [= <-]; left; split; [reflexivity | lia]|].
    intros [[-> _] | [Hid _]]; [reflexivity | lia]. }
  destruct (Nat.eqb_spec (length (str_of_int id_)) 5) as [Hlen | Hlen];
    cbn [negb].
  2:{ split; [intros [= <-]; left; split; [reflexivity | tauto]|].
      intros [[-> _] | [Hid _]]; [reflexivity | tauto]. }
  assert (Hid : 10000 <= id_ <= 99999) by (apply Hfive; now split).
  destruct nome as [|c nome].
  { split; [intros [= <-]; right; split; [assumption | now left]|].
    intros [[_ Hn] | [_ [[-> _] | [Hn _]]]];
      [tauto | reflexivity | now elim Hn]. }
  destruct (type_known (upper tipo)) eqn:Ht; cbn [negb].
  2:{ split.
      - intros [= <-]. right. split; [assumption|]. right.
        split; [discriminate|]. now left.
      - intros [[_ Hn] | [_ [[_ Hn] | [_ [[-> _] | [Hk _]]]]]];
          [tauto | discriminate | reflexivity | discriminate]. }
  destruct (Z.ltb_spec quantidade 0) as [Hq | Hq].
  { split.
    - intros [= <-]. right. split; [assumption|]. right.
      split; [discriminate|]. right. split; [reflexivity|]. now left.
    - intros [[_ Hn] | [_ [[_ Hn] | [_ [[_ Hk] | [_ [[-> _] | [Hq' _]]]]]]]];
        [tauto | discriminate | discriminate | reflexivity | lia]. }
  unfold dec_lt_zero.
  destruct (dec_cmp_zero preco) as [[| |]|]; cbn [of_option bind].
  - split; [discriminate|].
    intros [[_ Hn] | [_ [[_ Hn] | [_ [[_ Hk] | [_ [[_ Hq'] | [_ [[_ Hp] | [_ [Hp _]]]]]]]]]]];
      try tauto; try discriminate; try lia.
  - split.
    + intros [= <-]. right. split; [assumption|]. right.
      split; [discriminate|]. right. split; [reflexivity|]. right.
      split; [assumption|]. now left.
    + intros [[_ Hn] | [_ [[_ Hn] | [_ [[_ Hk] | [_ [[_ Hq'] | [_ [[-> _] | [_ [Hp _]]]]]]]]]]];
        try tauto; try discriminate; try lia; reflexivity.
  - split; [discriminate|].
    intros [[_ Hn] | [_ [[_ Hn] | [_ [[_ Hk] | [_ [[_ Hq'] | [_ [[_ Hp] | [_ [Hp _]]]]]]]]]]];
      try tauto; try discriminate; try lia.
  - split.
    + intros [= <-]. right. split; [assumption|]. right.
      split; [discriminate|]. right. split; [reflexivity|]. right.
      split; [assumption|]. right. now repeat split.
    + intros [[_ Hn] | [_ [[_ Hn] | [_ [[_ Hk] | [_ [[_ Hq'] | [_ [[_ Hp] | [-> _]]]]]]]]]];
        try tauto; try discriminate; try lia; reflexivity.
Qed.

(** X3. [from_csv] reads only the first five fields and is blind to the
    whitespace around each, such as [int] skips it around the id and the
    quantity, and [strip] and [Decimal] around the name, the type and the
    price: two records whose first five fields agree once trimmed so give
    the same Product or the same exception. *)
Theorem from_csv_ignores_padding (txt txt' : str)
    (Hcampos : campos txt = campos txt') :
  Produto.from_csv txt = Produto.from_csv txt'.
Proof. now rewrite !ParserFacts.from_csv_campos, Hcampos. Qed.

(** A separator U+001C is skipped before the price and not before the
    id. *)
Example from_csv_separator_before_price :
  Produto.from_csv (lit "40001,morangos,FRL,100," ++ "028"%char :: lit "1.5")
  = Ok morangos.
Proof. reflexivity. Qed.

Example from_csv_separator_before_id :
  Produto.from_csv ("028"%char :: lit "40001,morangos,FRL,100,1.5")
  = Raise ValueError.
Proof. reflexivity. Qed.

(** What a successful parse tells about the Product. *)
Lemma from_csv_ok_inv txt p :
  Produto.from_csv txt = Ok p ->
  constructed p /\
  10000 <= Produto.id p <= 99999 /\
  Produto.nome p <> [] /\ strip (Produto.nome p) = Produto.nome p /\
  no_comma (Produto.nome p) /\
  type_known (Produto.tipo p) = true /\
  0 <= Produto.quantidade p /\ dec_ge_zero (Produto.preco p).
Proof.
  intro Hp.
  unfold Produto.from_csv, getitem in Hp.
  destruct (nth_error (split comma txt) 0) as [a0|];
    cbn [of_option bind] in Hp; [|discriminate].
  destruct (py_int a0) as [i|]; cbn [bind] in Hp; [|discriminate].
  destruct (nth_error (split comma txt) 1) as [a1|] eqn:E1;
    cbn [of_option bind] in Hp; [|discriminate].
  destruct (nth_error (split comma txt) 2) as [a2|];
    cbn [of_option bind] in Hp; [|discriminate].
  destruct (nth_error (split comma txt) 3) as [a3|];
    cbn [of_option bind] in Hp; [|discriminate].
  destruct (py_int a3) as [q|]; cbn [bind] in Hp; [|discriminate].
  destruct (nth_error (split comma txt) 4) as [a4|];
    cbn [of_option bind] in Hp; [|discriminate].
  destruct (py_dec a4) as [pr|]; cbn [bind] in Hp; [|discriminate].
  destruct (ParserFacts.nome_trimmed txt a1 E1) as [Htrim Hcomma].
  split; [now apply (ParserFacts.constructed_of_init _ _ _ _ _ _ Hp)|].
  apply ParserFacts.init_ok_conditions in Hp.
  destruct Hp as (Hid & Hn & Ht & Hq & Hpr & ->). simpl.
  repeat split; assumption || (try apply Hid).
Qed.

(** X4. A Product that [from_csv] returns is one the constructor accepts,
    and its name, besides not empty, has no comma and no whitespace at
    either end. *)
Theorem from_csv_product_invariant (txt : str) (p : Produto.t)
    (Hp : Produto.from_csv txt = Ok p) :
  constructed p /\
  10000 <= Produto.id p <= 99999 /\
  Produto.nome p <> [] /\ strip (Produto.nome p) = Produto.nome p /\
  no_comma (Produto.nome p) /\
  type_known (Produto.tipo p) = true /\
  0 <= Produto.quantidade p /\ dec_ge_zero (Produto.preco p).
Proof. exact (from_csv_ok_inv txt p Hp). Qed.

(** X5. Every Product that [from_csv] returns goes through [Produto.string]
    and [from_csv] unchanged, whatever the record it came from. *)
Theorem from_csv_reparse (txt : str) (p : Produto.t)
    (Hp : Produto.from_csv txt = Ok p) :
  Produto.from_csv (Produto.string p) = Ok p.
Proof.
  destruct (from_csv_ok_inv txt p Hp) as (Hc & _ & _ & Htrim & Hcomma & _).
  now apply ParserFacts.from_csv_string_constructed.
Qed.

(** ** The collection, further *)

Module DictMore.

Lemma dict_get_app_fresh {V : Type} (d : dict V) k v :
  dict_mem k d = false -> dict_get k (d ++ [(k, v)]) = Some v.
Proof.
  induction d as [|[k' v'] d IH]; simpl.
  - now rewrite Z.eqb_refl.
  - destruct (k' =? k); simpl; [discriminate | exact IH].
Qed.

Lemma dict_get_app_other {V : Type} (d : dict V) k k' v :
  k' <> k -> dict_get k' (d ++ [(k, v)]) = dict_get k' d.
Proof.
  intro Hne. induction d as [|[k2 v2] d IH]; simpl.
  - destruct (Z.eqb_spec k k'); [congruence | reflexivity].
  - destruct (k2 =? k'); [reflexivity | exact IH].
Qed.

Lemma dict_mem_app {V : Type} (d1 d2 : dict V) k :
  dict_mem k (d1 ++ d2) = dict_mem k d1 || dict_mem k d2.
Proof. unfold dict_mem. apply existsb_app. Qed.

Lemma dict_del_app_fresh {V : Type} (d : dict V) k v :
  dict_mem k d = false -> dict_del k (d ++ [(k, v)]) = d.
Proof.
  induction d as [|[k' v'] d IH]; simpl.
  - now rewrite Z.eqb_refl.
  - destruct (k' =? k); simpl; [discriminate|]. intro H. now rewrite IH.
Qed.

Lemma filter_filter {A : Type} (f g : A -> bool) (l : list A) :
  filter g (filter f l) = filter (fun x => f x && g x) l.
Proof.
  induction l as [|a l IH]; simpl; [reflexivity|].
  destruct (f a); simpl; [destruct (g a); now rewrite IH | exact IH].
Qed.

(** The effect of a successful [append], spelled out. *)
Lemma append_fresh p c :
  dict_mem (Produto.id p) (ProductCollection._prods c) = false ->
  ProductCollection.append p c
  = (Ok tt,
     ProductCollection.mk
       (ProductCollection._prods c ++ [(Produto.id p, p)])
       (ProductCollection.list_ c)).
Proof.
  intro H. unfold ProductCollection.append.
  now rewrite H, (dict_set_fresh _ _ _ H).
Qed.

End DictMore.

(** X6. Appending a product whose id is not in the collection succeeds: the
    product is then found under its id, every other id gives what it gave
    before, the product comes last in the iteration, and the saved text is
    untouched. *)
Theorem append_then_lookup (c : t) (p : Produto.t)
    (Hfresh : pesquisa_por_id (Produto.id p) c = None) :
  exists c',
    append p c = (Ok tt, c') /\
    pesquisa_por_id (Produto.id p) c' = Some p /\
    (forall k, k <> Produto.id p ->
       pesquisa_por_id k c' = pesquisa_por_id k c) /\
    iter c' = iter c ++ [p] /\ list_ c' = list_ c.
Proof.
  apply dict_get_none in Hfresh.
  eexists. split; [now apply DictMore.append_fresh|].
  unfold pesquisa_por_id, iter, dict_values. simpl.
  split; [now apply DictMore.dict_get_app_fresh|].
  split; [intros k Hk; now apply DictMore.dict_get_app_other|].
  split; [now rewrite map_app | reflexivity].
Qed.

(** X7. Deleting a product right after it was appended gives the collection
    back as it was before the two calls. *)
Theorem append_eliminar_cancel (c : t) (p : Produto.t)
    (Hfresh : pesquisa_por_id (Produto.id p) c = None) :
  eliminar (Produto.id p) (snd (append p c)) = (Ok tt, c).
Proof.
  apply dict_get_none in Hfresh.
  rewrite (DictMore.append_fresh p c Hfresh). unfold eliminar. simpl.
  rewrite DictMore.dict_mem_app, Hfresh. simpl. rewrite Z.eqb_refl. simpl.
  rewrite (DictMore.dict_del_app_fresh _ _ _ Hfresh). now destruct c.
Qed.

(** X8. Searching within the result of a search is searching once for the
    members that satisfy both criteria. *)
Theorem pesquisa_of_pesquisa (f g : Produto.t -> bool) (c : t)
    (Hc : well_keyed c) :
  exists r r2,
    pesquisa f c = (Ok r, c) /\
    pesquisa g r = (Ok r2, r) /\
    pesquisa (fun p => f p && g p) c = (Ok r2, c).
Proof.
  exists (mk (filter (fun kv => f (snd kv)) (_prods c)) []).
  exists (mk (filter (fun kv => f (snd kv) && g (snd kv)) (_prods c)) []).
  split; [now apply CollectionFacts.pesquisa_spec|].
  split; [|now apply CollectionFacts.pesquisa_spec].
  rewrite CollectionFacts.pesquisa_spec
    by now apply CollectionFacts.well_keyed_filter.
  simpl. now rewrite DictMore.filter_filter.
Qed.

(** ** The catalogue file *)

Module FileFacts.
Import TextFacts Trimming.

Lemma strip_nil_empty linha : strip linha <> [] -> linha <> [].
Proof. intros H ->. now apply H. Qed.

(** The generator passes on the relevant lines and nothing else. *)
Lemma linhas_relevantes_for_each {S : Type}
    (corpo : str -> S -> result unit * S) fich : forall s,
  linhas_relevantes fich corpo s = for_each (filter relevante fich) corpo s.
Proof.
  induction fich as [|linha resto IH]; intro s; [reflexivity|].
  cbn [linhas_relevantes filter]. unfold relevante.
  destruct (strip linha) as [|x xs] eqn:E; [apply IH|].
  destruct linha as [|c linha]; [discriminate E|].
  cbn [char_at nth_error of_option].
  destruct (Ascii.eqb c hash); cbn [negb for_each]; [apply IH|].
  destruct (corpo (c :: linha) s) as [[u|e] s']; [apply IH | reflexivity].
Qed.

Lemma for_each_app {S : Type} (corpo : str -> S -> result unit * S) l1 l2 :
  forall s s1,
    for_each l1 corpo s = (Ok tt, s1) ->
    for_each (l1 ++ l2) corpo s = for_each l2 corpo s1.
Proof.
  induction l1 as [|l l1 IH]; intros s s1; simpl.
  - now intros [= ->].
  - destruct (corpo l s) as [[u|e] s']; [apply IH | discriminate].
Qed.

(** *** Loading *)

Lemma entries_values ps : dict_values (entries ps) = ps.
Proof.
  unfold dict_values, entries. rewrite map_map. simpl. apply map_id.
Qed.

Lemma entries_keys ps : dict_keys (entries ps) = map Produto.id ps.
Proof. unfold dict_keys, entries. now rewrite map_map. Qed.

Lemma entries_of_well_keyed c :
  well_keyed c -> entries (iter c) = _prods c.
Proof.
  intros [_ Hid]. unfold entries, iter, dict_values. rewrite map_map.
  induction Hid as [|[k p] d Hk _ IH]; simpl; [reflexivity|].
  simpl in Hk. now rewrite IH, Hk.
Qed.

(** The loop of [le_produtos] over lines that parse to products with new,
    distinct ids. *)
Lemma for_each_load ls ps :
  Forall2 (fun l p => Produto.from_csv l = Ok p) ls ps ->
  forall c,
    NoDup (map Produto.id ps) ->
    (forall p, In p ps -> dict_mem (Produto.id p) (_prods c) = false) ->
    for_each ls le_produtos_corpo c
    = (Ok tt, mk (_prods c ++ entries ps) (list_ c)).
Proof.
  induction 1 as [|l p ls ps Hl _ IH]; intros c Hnd Hfresh.
  - simpl. rewrite app_nil_r. now destruct c.
  - cbn [for_each]. unfold le_produtos_corpo at 1. rewrite Hl.
    rewrite DictMore.append_fresh by (apply Hfresh; now left).
    inversion Hnd as [|? ? Hnotin Hnd']; subst.
    rewrite IH; [| assumption |].
    + simpl. now rewrite <- app_assoc.
    + intros q Hq. simpl. rewrite DictMore.dict_mem_app.
      rewrite (Hfresh q) by now right. simpl.
      rewrite orb_false_r. apply Z.eqb_neq. intro Heq.
      apply Hnotin. rewrite Heq. now apply in_map.
Qed.

(** *** Lines *)

Lemma universal_newlines_write linesep t :
  linesep = [newline] \/ linesep = [cr; newline] ->
  Forall (fun c => Ascii.eqb c cr = false) t ->
  universal_newlines (write_text linesep t) = t.
Proof.
  intros Hsep Ht. induction Ht as [|c t Hc _ IH]; [reflexivity|].
  cbn [write_text flat_map]. fold (write_text linesep t).
  destruct (Ascii.eqb c newline) eqn:Hn.
  - apply Ascii.eqb_eq in Hn. subst c.
    destruct Hsep as [-> | ->]; cbn [app universal_newlines].
    + change (Ascii.eqb newline cr) with false. cbv iota. now rewrite IH.
    + change (Ascii.eqb cr cr) with true.
      change (Ascii.eqb newline newline) with true. cbv iota. now rewrite IH.
  - cbn [app universal_newlines]. now rewrite Hc, IH.
Qed.

Lemma keepends_cons f rest :
  rest <> [] -> keepends (f :: rest) = (f ++ [newline]) :: keepends rest.
Proof. destruct rest; [intro H; now elim H | reflexivity]. Qed.

Lemma keepends_lines lines :
  Forall (Forall (fun c => Ascii.eqb c newline = false)) lines ->
  keepends (split newline (concat (map (fun l => l ++ [newline]) lines)))
  = map (fun l => l ++ [newline]) lines.
Proof.
  induction 1 as [|l lines Hl _ IH]; [reflexivity|].
  cbn [map concat]. rewrite <- app_assoc. cbn [app].
  rewrite (split_piece newline l _ Hl).
  rewrite keepends_cons by apply split_not_nil. now rewrite IH.
Qed.

Lemma plain_one_line s : Forall plain s -> one_line s.
Proof.
  apply Forall_impl. intros c (Hc & _ & _). by_chars c; now split.
Qed.

(** The record of a storable product is one line. *)
Lemma string_one_line p : storable p -> one_line (Produto.string p).
Proof.
  intros (Hc & _ & _ & Hone).
  pose proof (ProdutoFacts.init_ok_inv _ _ _ _ _ _ Hc)
    as (_ & _ & _ & Ht & _ & _ & Heq).
  assert (Htipo : type_known (Produto.tipo p) = true).
  { rewrite Heq. exact Ht. }
  assert (Hcomma : Ascii.eqb comma newline = false /\ Ascii.eqb comma cr = false)
    by now split.
  unfold Produto.string, one_line.
  repeat (apply Forall_app; split) || constructor; try exact Hcomma.
  - apply plain_one_line, str_of_int_plain.
  - exact Hone.
  - now apply plain_one_line, RecordFacts.type_code_plain.
  - apply plain_one_line, str_of_int_plain.
  - apply plain_one_line, DecimalRoundTrip.str_of_dec_plain.
Qed.

Lemma one_line_no_newline s :
  one_line s -> Forall (fun c => Ascii.eqb c newline = false) s.
Proof. apply Forall_impl. now intros c [H _]. Qed.

Lemma one_line_no_cr s :
  one_line s -> Forall (fun c => Ascii.eqb c cr = false) s.
Proof. apply Forall_impl. now intros c [_ H]. Qed.

Lemma records_text_lines ps :
  records_text ps
  = concat (map (fun l => l ++ [newline]) (map Produto.string ps)).
Proof. unfold records_text. now rewrite map_map. Qed.

Lemma records_text_no_cr ps :
  Forall storable ps ->
  Forall (fun c => Ascii.eqb c cr = false) (records_text ps).
Proof.
  unfold records_text. induction 1 as [|p ps Hp _ IH]; [constructor|].
  cbn [map concat]. apply Forall_app. split; [|exact IH].
  apply Forall_app. split; [|now repeat constructor].
  now apply one_line_no_cr, string_one_line.
Qed.

(** The lines of the file that holds the records of storable products. *)
Lemma file_lines_records linesep ps :
  linesep = [newline] \/ linesep = [cr; newline] ->
  Forall storable ps ->
  file_lines (write_text linesep (records_text ps))
  = map (fun p => Produto.string p ++ [newline]) ps.
Proof.
  intros Hsep Hps. unfold file_lines.
  rewrite (universal_newlines_write _ _ Hsep (records_text_no_cr ps Hps)).
  rewrite records_text_lines, keepends_lines, map_map; [reflexivity|].
  apply Forall_map. revert Hps. apply Forall_impl. intros p Hp.
  now apply one_line_no_newline, string_one_line.
Qed.

(** *** The line of a storable product *)

Lemma aparar_snoc_last fns fs c :
  Forall (fun f : str -> str => forall s, f (s ++ [c]) = f s) fns ->
  aparar fns (snoc_last fs c) = aparar fns fs.
Proof.
  intro H. revert fs. induction H as [|f fns Hf _ IH]; intro fs;
    [reflexivity|].
  destruct fs as [|x [|y fs]]; [reflexivity | |].
  - cbn [snoc_last aparar]. rewrite Hf. now destruct fns.
  - cbn [snoc_last aparar]. f_equal. apply (IH (y :: fs)).
Qed.

(** A character that [int] skips, at the end of a record, is not read. *)
Lemma campos_snoc_space txt c :
  is_int_space c = true -> Ascii.eqb c comma = false ->
  campos (txt ++ [c]) = campos txt.
Proof.
  intros Hsp Hc. unfold campos. rewrite (split_snoc comma c txt Hc).
  apply aparar_snoc_last.
  pose proof (int_space_space c Hsp) as Hsp'.
  unfold aparas.
  repeat constructor; intro s;
    (now apply strip_of_snoc) || (now apply strip_snoc_space).
Qed.

Lemma string_head_digit p :
  constructed p ->
  exists c r, Produto.string p = c :: r /\ is_digit c = true.
Proof.
  intro Hc. apply ProdutoFacts.init_ok_inv in Hc.
  destruct Hc as (Hid & _). unfold Produto.string.
  rewrite (ProdutoFacts.str_of_int_nonneg _ Hid).
  pose proof (NumberText.str_of_N_digits (Z.to_N (Produto.id p))) as Hd.
  pose proof (NumberText.str_of_N_nonempty (Z.to_N (Produto.id p))) as Hne.
  destruct (str_of_N (Z.to_N (Produto.id p))) as [|c r]; [now elim Hne|].
  apply Forall_cons_iff in Hd. exists c. eexists. split; [reflexivity|].
  apply Hd.
Qed.

Lemma storable_line p :
  storable p ->
  relevante (Produto.string p ++ [newline]) = true /\
  Produto.from_csv (Produto.string p ++ [newline]) = Ok p.
Proof.
  intros (Hc & Hcomma & Htrim & Hone). split.
  - destruct (string_head_digit p Hc) as (c & r & Hs & Hd). rewrite Hs.
    unfold relevante.
    destruct (digit_plain c Hd) as (Hsp & _).
    pose proof (strip_nonspace_head c (r ++ [newline]) Hsp) as Hne.
    cbn [app]. destruct (strip (c :: r ++ [newline])); [now elim Hne|].
    clear - Hd. by_chars c.
  - rewrite !ParserFacts.from_csv_campos.
    rewrite campos_snoc_space by reflexivity.
    rewrite <- ParserFacts.from_csv_campos.
    now apply ParserFacts.from_csv_string_constructed.
Qed.

Lemma storable_lines ps :
  Forall storable ps ->
  filter relevante (map (fun p => Produto.string p ++ [newline]) ps)
  = map (fun p => Produto.string p ++ [newline]) ps /\
  Forall2 (fun l p => Produto.from_csv l = Ok p)
    (map (fun p => Produto.string p ++ [newline]) ps) ps.
Proof.
  induction 1 as [|p ps Hp _ [IH1 IH2]]; [split; constructor|].
  destruct (storable_line p Hp) as [Hr Hf]. cbn [map filter].
  rewrite Hr, IH1. split; [reflexivity | now constructor].
Qed.

End FileFacts.

(** X9. [linhas_relevantes] hands to the loop that consumes it exactly the
    lines that are not blank and do not start with [#], in their order, and
    raises nothing of its own: its [linha[0]] is only reached on a line
    that is not empty. *)
Theorem linhas_relevantes_yields (S : Type)
    (corpo : str -> S -> result unit * S) (fich : list str) (s : S) :
  linhas_relevantes fich corpo s = for_each (filter relevante fich) corpo s.
Proof. apply FileFacts.linhas_relevantes_for_each. Qed.

(** X10. When the relevant lines of the file parse to products whose ids are
    distinct and not in the catalogue, [le_produtos] adds these products to
    the catalogue, in the order of the file, after the ones it holds. *)
Theorem le_produtos_loads (conteudo : str) (ps : list Produto.t) (c : t)
    (Hparse : Forall2 (fun l p => Produto.from_csv l = Ok p)
                (filter relevante (file_lines conteudo)) ps)
    (Hdistinct : NoDup (map Produto.id ps))
    (Hfresh : forall p, In p ps -> pesquisa_por_id (Produto.id p) c = None) :
  le_produtos conteudo c = (Ok tt, mk (_prods c ++ entries ps) (list_ c)).
Proof.
  unfold le_produtos. rewrite FileFacts.linhas_relevantes_for_each.
  apply FileFacts.for_each_load; [assumption | assumption |].
  intros p Hp. now apply dict_get_none, Hfresh.
Qed.

(** X11. [le_produtos] stops at the first relevant line that does not parse
    or that repeats an id: the exception escapes, and the catalogue keeps
    the products of the lines before it. *)
Theorem le_produtos_stops (conteudo : str) (ls1 : list str) (l : str)
    (ls2 : list str) (ps : list Produto.t) (c : t) (e : exn)
    (Hlines : filter relevante (file_lines conteudo) = ls1 ++ l :: ls2)
    (Hparse : Forall2 (fun l p => Produto.from_csv l = Ok p) ls1 ps)
    (Hdistinct : NoDup (map Produto.id ps))
    (Hfresh : forall p, In p ps -> pesquisa_por_id (Produto.id p) c = None)
    (Hbad : Produto.from_csv l = Raise e \/
            exists p,
              Produto.from_csv l = Ok p /\
              In (Produto.id p) (dict_keys (_prods c) ++ map Produto.id ps) /\
              e = DuplicateValue (Produto.id p)) :
  le_produtos conteudo c = (Raise e, mk (_prods c ++ entries ps) (list_ c)).
Proof.
  unfold le_produtos. rewrite FileFacts.linhas_relevantes_for_each, Hlines.
  rewrite (FileFacts.for_each_app le_produtos_corpo ls1 (l :: ls2) c
             (mk (_prods c ++ entries ps) (list_ c))).
  - cbn [for_each]. unfold le_produtos_corpo at 1.
    destruct Hbad as [-> | (p & -> & Hin & ->)]; [reflexivity|].
    unfold append. cbn [_prods].
    assert (Hmem : dict_mem (Produto.id p) (_prods c ++ entries ps) = true).
    { apply dict_mem_keys. rewrite CollectionFacts.keys_app.
      now rewrite FileFacts.entries_keys. }
    now rewrite Hmem.
  - apply FileFacts.for_each_load; [assumption | assumption |].
    intros p Hp. now apply dict_get_none, Hfresh.
Qed.

(** X12. What [exec_guardar] writes for a catalogue that was not saved
    before, and whose products are storable, [le_produtos] reads back into
    an empty catalogue as that very catalogue, on either platform's line
    separator. *)
Theorem guardar_then_le_produtos (linesep : str) (c : t)
    (Hsep : linesep = [newline] \/ linesep = [cr; newline])
    (Hc : well_keyed c)
    (Hnew : list_ c = [])
    (Hps : Forall storable (iter c)) :
  le_produtos (fst (exec_guardar linesep c)) init = (Ok tt, c).
Proof.
  unfold exec_guardar. rewrite CollectionFacts.grava_spec, Hnew.
  cbn [fst app]. unfold le_produtos.
  rewrite (FileFacts.file_lines_records linesep (iter c) Hsep Hps).
  rewrite FileFacts.linhas_relevantes_for_each.
  destruct (FileFacts.storable_lines (iter c) Hps) as [Hrel Hparse].
  rewrite Hrel, (FileFacts.for_each_load _ _ Hparse).
  - cbn [_prods list_ init app].
    rewrite (FileFacts.entries_of_well_keyed c Hc).
    destruct c as [d l]. simpl in Hnew. now subst l.
  - destruct Hc as [Hnd Hid]. change (NoDup (ids c)).
    now rewrite CollectionFacts.ids_keys by assumption.
  - reflexivity.
Qed.

(** X13. Saving twice spoils the file: what the second [exec_guardar]
    writes holds every record twice, so that [le_produtos] loads the
    catalogue and then stops on [DuplicateValue] for the first product. *)
Theorem second_guardar_spoils_file (linesep : str) (c : t) (p : Produto.t)
    (ps : list Produto.t)
    (Hsep : linesep = [newline] \/ linesep = [cr; newline])
    (Hc : well_keyed c)
    (Hnew : list_ c = [])
    (Hps : Forall storable (iter c))
    (Hfirst : iter c = p :: ps) :
  le_produtos
    (fst (exec_guardar linesep (snd (snd (exec_guardar linesep c))))) init
  = (Raise (DuplicateValue (Produto.id p)), c).
Proof.
  assert (Htwice :
            fst (exec_guardar linesep (snd (snd (exec_guardar linesep c))))
            = write_text linesep (records_text (iter c ++ iter c))).
  { unfold exec_guardar. rewrite !CollectionFacts.grava_spec. unfold iter.
    cbn [fst snd list_ _prods]. rewrite Hnew. cbn [app].
    unfold records_text. now rewrite map_app, concat_app. }
  assert (Hps2 : Forall storable (iter c ++ iter c))
    by (apply Forall_app; now split).
  rewrite Htwice. unfold le_produtos.
  rewrite (FileFacts.file_lines_records linesep _ Hsep Hps2).
  rewrite FileFacts.linhas_relevantes_for_each.
  destruct (FileFacts.storable_lines _ Hps2) as [Hrel _].
  destruct (FileFacts.storable_lines _ Hps) as [_ Hparse].
  rewrite Hrel, map_app.
  rewrite (FileFacts.for_each_app le_produtos_corpo _ _ init c).
  - rewrite Hfirst. cbn [map for_each]. unfold le_produtos_corpo at 1.
    assert (Hp : storable p).
    { rewrite Hfirst in Hps. now apply Forall_cons_iff in Hps. }
    destruct (FileFacts.storable_line p Hp) as [_ ->].
    unfold append.
    assert (Hmem : dict_mem (Produto.id p) (_prods c) = true).
    { apply dict_mem_keys. destruct Hc as [Hnd Hid].
      rewrite <- CollectionFacts.ids_keys by assumption.
      unfold ids. rewrite Hfirst. now left. }
    now rewrite Hmem.
  - rewrite (FileFacts.for_each_load _ _ Hparse).
    + cbn [_prods list_ init app].
      rewrite (FileFacts.entries_of_well_keyed c Hc).
      destruct c as [d l]. simpl in Hnew. now subst l.
    + destruct Hc as [Hnd Hid]. change (NoDup (ids c)).
      now rewrite CollectionFacts.ids_keys by assumption.
    + reflexivity.
Qed.

(** ** The menu's commands *)

Module CommandFacts.
Import TextFacts Trimming.

Lemma count_char_app c a b :
  count_char c (a ++ b) = (count_char c a + count_char c b)%nat.
Proof. unfold count_char. now rewrite filter_app, length_app. Qed.

Lemma count_char_cons c d s :
  count_char c (d :: s)
  = ((if Ascii.eqb c d then 1 else 0) + count_char c s)%nat.
Proof. unfold count_char. simpl. now destruct (Ascii.eqb c d). Qed.

Lemma count_zero_no_comma s : count_char comma s = O -> no_comma s.
Proof.
  induction s as [|c s IH]; [constructor|].
  rewrite count_char_cons, (Ascii.eqb_sym comma c).
  destruct (Ascii.eqb c comma) eqn:E; [discriminate|].
  intro H. constructor; [exact E | now apply IH].
Qed.

Lemma no_comma_count_zero s : no_comma s -> count_char comma s = O.
Proof.
  induction 1 as [|c s Hc _ IH]; [reflexivity|].
  now rewrite count_char_cons, (Ascii.eqb_sym comma c), Hc, IH.
Qed.

Lemma no_comma_contains s : no_comma s -> contains comma s = false.
Proof.
  induction 1 as [|c s Hc _ IH]; [reflexivity|].
  unfold contains in *. cbn [existsb].
  now rewrite (Ascii.eqb_sym comma c), Hc, IH.
Qed.

Lemma virgula_decimal_no_comma s : no_comma s -> virgula_decimal s = s.
Proof.
  induction 1 as [|c s Hc _ IH]; [reflexivity|].
  unfold virgula_decimal in *. simpl. now rewrite Hc, IH.
Qed.

(** The price typed with at most one comma: the comma becomes a point. *)
Lemma preco_digitado_virgula s :
  (count_char comma s <= 1)%nat -> preco_digitado s = virgula_decimal s.
Proof.
  intro Hcount. unfold preco_digitado.
  destruct (contains comma s) eqn:Hin.
  2:{ symmetry. apply virgula_decimal_no_comma, count_zero_no_comma.
      unfold contains in Hin. unfold count_char.
      clear Hcount. induction s as [|c s IH]; [reflexivity|].
      cbn [existsb filter] in *.
      destruct (Ascii.eqb comma c); [discriminate | now apply IH]. }
  destruct (Nat.eqb_spec (count_char comma s) 1) as [Hone | Hne].
  - clear Hin Hcount. revert Hone.
    induction s as [|c s IH]; [discriminate|].
    rewrite count_char_cons, (Ascii.eqb_sym comma c).
    unfold virgula_decimal. cbn [index_char map].
    destruct (Ascii.eqb c comma) eqn:E; intro H.
    + cbn [firstn app Nat.add skipn]. f_equal.
      symmetry. apply virgula_decimal_no_comma, count_zero_no_comma. lia.
    + cbn [firstn app Nat.add skipn]. f_equal. apply IH. lia.
  - assert (count_char comma s = O) by lia.
    now rewrite (no_comma_contains s (count_zero_no_comma s H)) in Hin.
Qed.

Lemma virgula_decimal_clean s : no_comma (virgula_decimal s).
Proof.
  unfold virgula_decimal, no_comma. apply Forall_map, Forall_forall.
  intros c _. destruct (Ascii.eqb c comma) eqn:E; [reflexivity | exact E].
Qed.


Lemma split_field_blank n rest :
  no_comma n ->
  split comma (blank :: n ++ comma :: rest)
  = (blank :: n) :: split comma rest.
Proof.
  intro Hn. apply (split_field (blank :: n) rest). now constructor.
Qed.

(** The trimmed fields of the record, when the typed fields hold no comma;
    what follows a comma in the last field is out of reach. *)
Lemma campos_new_prod_csv n1 n2 n3 n4 n5 resto :
  no_comma n1 -> no_comma n2 -> no_comma n3 -> no_comma n4 -> no_comma n5 ->
  resto = [] \/ (exists r, resto = comma :: r) ->
  campos (new_prod_csv (n1, n2, n3, n4, n5 ++ resto))
  = [strip_of is_int_space n1; strip n2; strip n3;
     strip_of is_int_space n4; strip n5].
Proof.
  intros H1 H2 H3 H4 H5 Hresto. unfold campos, new_prod_csv.
  rewrite split_field by exact H1.
  rewrite !split_field_blank by assumption.
  assert (Hlast : exists fs,
             split comma (blank :: n5 ++ resto) = (blank :: n5) :: fs).
  { destruct Hresto as [-> | [r ->]].
    - rewrite app_nil_r, split_no_comma by now constructor. now exists [].
    - rewrite split_field_blank by assumption. eauto. }
  destruct Hlast as [fs ->].
  cbn [aparas aparar].
  rewrite (strip_of_cons is_int_space blank n4) by reflexivity.
  now rewrite !strip_cons_space by reflexivity.
Qed.

Lemma from_campos_fields n1 n2 n3 n4 n5 :
  from_campos [strip_of is_int_space n1; strip n2; strip n3;
               strip_of is_int_space n4; strip n5]
  = produto_dos_campos n1 n2 n3 n4 n5.
Proof.
  unfold from_campos, produto_dos_campos, getitem.
  cbn [nth_error of_option bind].
  rewrite !ParserFacts.py_int_int_strip, ParserFacts.py_dec_strip.
  destruct (py_int n1); cbn [bind]; [|reflexivity].
  destruct (py_int n4); cbn [bind]; reflexivity.
Qed.







End CommandFacts.

Example exec_adicionar_empty_field :
  exec_adicionar (lit "40003") [] (lit "FRL") (lit "1") (lit "2") catalogo
  = (Chama_exec_menu, [Campos_obrigatorios], catalogo).
Proof. reflexivity. Qed.

Example exec_adicionar_appends :
  exec_adicionar (lit "40003") (lit "peras") (lit "frl") (lit "1") (lit "2,5")
    catalogo
  = (Termina (Ok tt), [Produto_adicionado],
     snd (append (Produto.mk 40003 (lit "peras") (lit "FRL") 1
                    (Finite false 25 (-1))) catalogo)).
Proof. reflexivity. Qed.

Example exec_adicionar_duplicate_escapes :
  exec_adicionar (lit "40001") (lit "peras") (lit "frl") (lit "1") (lit "2")
    catalogo
  = (Termina (Raise (DuplicateValue 40001)), [], catalogo).
Proof. reflexivity. Qed.


(** X15. When none of the first four fields typed holds a comma and the
    price holds at most one, the record that [exec_adicionar] builds and
    parses gives what reading the fields one by one gives, the comma of the
    price taken as the decimal point. *)
Theorem exec_adicionar_reads_fields (n1 n2 n3 n4 n5 : str)
    (campos : str * str * str * str * str)
    (Hcampos : new_prod_func n1 n2 n3 n4 n5 = Some campos)
    (H1 : no_comma n1) (H2 : no_comma n2) (H3 : no_comma n3)
    (H4 : no_comma n4) (H5 : (count_char comma n5 <= 1)%nat) :
  Produto.from_csv (new_prod_csv campos)
  = produto_dos_campos n1 n2 n3 n4 (virgula_decimal n5).
Proof.
  unfold new_prod_func in Hcampos.
  rewrite (CommandFacts.preco_digitado_virgula n5 H5) in Hcampos.
  destruct (nonempty n1 && nonempty n2 && nonempty n3 && nonempty n4
            && nonempty (virgula_decimal n5)); [|discriminate].
  injection Hcampos as <-.
  rewrite ParserFacts.from_csv_campos.
  rewrite <- (app_nil_r (virgula_decimal n5)) at 1.
  rewrite CommandFacts.campos_new_prod_csv;
    auto using CommandFacts.virgula_decimal_clean.
  apply CommandFacts.from_campos_fields.
Qed.

(** X16. A price typed with two commas or more is not refused for them:
    [exec_adicionar] reads as price the text before the first comma and
    never looks at the rest. *)
Theorem exec_adicionar_cuts_price (n1 n2 n3 n4 antes depois : str)
    (campos : str * str * str * str * str)
    (Hcampos : new_prod_func n1 n2 n3 n4 (antes ++ comma :: depois)
               = Some campos)
    (H1 : no_comma n1) (H2 : no_comma n2) (H3 : no_comma n3)
    (H4 : no_comma n4) (Hantes : no_comma antes)
    (Hdepois : contains comma depois = true) :
  Produto.from_csv (new_prod_csv campos)
  = produto_dos_campos n1 n2 n3 n4 antes.
Proof.
  unfold new_prod_func, preco_digitado in Hcampos.
  assert (Hin : contains comma (antes ++ comma :: depois) = true).
  { unfold contains. rewrite existsb_app. simpl.
    now rewrite orb_true_r. }
  assert (Hcount : Nat.eqb (count_char comma (antes ++ comma :: depois)) 1
                   = false).
  { apply Nat.eqb_neq. rewrite CommandFacts.count_char_app.
    rewrite CommandFacts.count_char_cons.
    change (Ascii.eqb comma comma) with true. cbv iota.
    assert (count_char comma depois <> O).
    { intro H0. apply CommandFacts.count_zero_no_comma in H0.
      apply CommandFacts.no_comma_contains in H0. congruence. }
    lia. }
  rewrite Hin, Hcount in Hcampos.
  destruct (nonempty n1 && nonempty n2 && nonempty n3 && nonempty n4
            && nonempty (antes ++ comma :: depois)); [|discriminate].
  injection Hcampos as <-.
  rewrite ParserFacts.from_csv_campos.
  rewrite CommandFacts.campos_new_prod_csv; eauto.
  apply CommandFacts.from_campos_fields.
Qed.

(** X17. [exec_eliminar] on an entry that is no integer lets the
    [ValueError] of [int] escape, after the listing and with the catalogue
    as it was; on an integer it never raises: either the product of that id
    is deleted, or the [FileNotFound] of [eliminar] is caught and shown; in
    both cases the id is absent afterwards and the other ids give what they
    gave before. *)
Theorem exec_eliminar_outcomes (entrada : str) (c : t)
    (Hdict : NoDup (dict_keys (_prods c))) :
  let lista := map Mostra_produto (iter c) in
  match int_of_str entrada with
  | None => exec_eliminar entrada c = (Raise ValueError, lista, c)
  | Some k =>
      exists m c',
        exec_eliminar entrada c = (Ok tt, lista ++ [m], c') /\
        pesquisa_por_id k c' = None /\
        (forall k', k' <> k -> pesquisa_por_id k' c' = pesquisa_por_id k' c) /\
        ((m = Produto_eliminado k /\ pesquisa_por_id k c <> None) \/
         (m = Mostra_erro (FileNotFound k) /\ c' = c))
  end.
Proof.
  intro lista. unfold exec_eliminar, py_int. fold lista.
  destruct (int_of_str entrada) as [k|]; cbn [of_option]; [|reflexivity].
  unfold eliminar, pesquisa_por_id.
  destruct (dict_mem k (_prods c)) eqn:Emem; cbn [negb].
  - eexists. eexists. split; [reflexivity|]. cbn [_prods].
    rewrite (dict_del_filter _ _ Hdict).
    split; [apply dict_get_none, dict_mem_filter_key|].
    split; [intros k' Hk'; now apply dict_get_filter_key|].
    left. split; [reflexivity | now apply dict_get_mem].
  - eexists. eexists. split; [reflexivity|].
    split; [now apply dict_get_none|]. split; [reflexivity|].
    right. now split.
Qed.

(** ** What every call keeps *)

Module InvariantFacts.

Lemma for_each_keeps {S : Type} (P : S -> Prop)
    (corpo : str -> S -> result unit * S) :
  (forall l s, P s -> P (snd (corpo l s))) ->
  forall ls s, P s -> P (snd (for_each ls corpo s)).
Proof.
  intros Hcorpo ls. induction ls as [|l ls IH]; intros s Hs; [exact Hs|].
  cbn [for_each]. specialize (Hcorpo l s Hs).
  destruct (corpo l s) as [[u|e] s']; [now apply IH | exact Hcorpo].
Qed.

Lemma le_produtos_corpo_keeps l c :
  well_keyed c -> well_keyed (snd (le_produtos_corpo l c)).
Proof.
  intro Hc. unfold le_produtos_corpo.
  destruct (Produto.from_csv l) as [p|e]; [|exact Hc].
  now apply CollectionFacts.well_keyed_append.
Qed.

End InvariantFacts.

(** X18. [grava] returns the text kept from the earlier calls followed by
    the records of the members, keeps that text for the next call, and
    leaves the members as they are: the text is the catalogue's own only on
    an object that was never saved. *)
Theorem grava_returns_saved_and_records (c : t) :
  exists texto,
    grava c = (Ok texto, mk (_prods c) texto) /\
    texto = list_ c ++ records_text (iter c) /\
    (list_ c = [] -> texto = records_text (iter c)).
Proof.
  exists (list_ c ++ records_text (iter c)).
  split; [apply CollectionFacts.grava_spec|]. split; [reflexivity|].
  now intros ->.
Qed.

(** X19. Loading a file and the commands of the menu keep the catalogue
    well keyed, every product under its own id and no id twice, whatever
    the file or the texts typed, also when an exception escapes, and when
    [exec_adicionar] hands the catalogue to a nested [exec_menu()]. *)
Theorem commands_keep_ids_unique (c : t) (Hc : well_keyed c) :
  (forall conteudo, well_keyed (snd (le_produtos conteudo c))) /\
  (forall n1 n2 n3 n4 n5, well_keyed (snd (exec_adicionar n1 n2 n3 n4 n5 c))) /\
  (forall entrada, well_keyed (snd (exec_eliminar entrada c))) /\
  (forall entrada, snd (exec_pesquisar entrada c) = c) /\
  snd (exec_listar c) = c /\
  (forall linesep, well_keyed (snd (snd (exec_guardar linesep c)))).
Proof.
  split; [|split; [|split; [|split; [|split]]]].
  - intro conteudo. unfold le_produtos.
    rewrite FileFacts.linhas_relevantes_for_each.
    apply InvariantFacts.for_each_keeps; [|exact Hc].
    exact InvariantFacts.le_produtos_corpo_keeps.
  - intros n1 n2 n3 n4 n5. unfold exec_adicionar.
    destruct (new_prod_func n1 n2 n3 n4 n5) as [campos|]; [|exact Hc].
    pose proof (InvariantFacts.le_produtos_corpo_keeps
                  (new_prod_csv campos) c Hc) as H.
    unfold le_produtos_corpo in H.
    destruct (Produto.from_csv (new_prod_csv campos)) as [p|e].
    + destruct (append p c) as [[u|e] c']; [exact H|].
      destruct (exec_adicionar_apanha e); exact H.
    + destruct (exec_adicionar_apanha e); exact H.
  - intro entrada. unfold exec_eliminar.
    destruct (py_int entrada) as [k|e]; [|exact Hc].
    pose proof (CollectionFacts.well_keyed_eliminar k c Hc) as H.
    destruct (eliminar k c) as [[u|e] c']; [exact H|].
    destruct (caught_by e cls_FileNotFound); exact H.
  - intro entrada. unfold exec_pesquisar. now destruct (py_int entrada).
  - reflexivity.
  - intro linesep. exact Hc.
Qed.

(** ** The further properties at work *)

Lemma catalogo_well_keyed : well_keyed catalogo.
Proof.
  apply CollectionFacts.reachable_well_keyed.
  unfold catalogo. apply reach_append, reach_append, reach_init.
Qed.

Lemma morangos_storable : storable morangos.
Proof. repeat split; repeat constructor. Qed.

Lemma arroz_storable : storable arroz.
Proof. repeat split; repeat constructor. Qed.

Lemma catalogo_storable : Forall storable (iter catalogo).
Proof.
  change (iter catalogo) with [morangos; arroz].
  constructor; [exact morangos_storable|].
  constructor; [exact arroz_storable | constructor].
Qed.

Lemma from_csv_ignores_padding_witness :
  Produto.from_csv (lit " 40001 , morangos ,FRL, 100 , 1.5 ,sobra")
  = Produto.from_csv (lit "40001,morangos,FRL,100,1.5").
Proof.
  apply (from_csv_ignores_padding
           (lit " 40001 , morangos ,FRL, 100 , 1.5 ,sobra")
           (lit "40001,morangos,FRL,100,1.5")).
  reflexivity.
Defined.

Lemma from_csv_product_invariant_witness :
  constructed morangos /\
  10000 <= Produto.id morangos <= 99999 /\
  Produto.nome morangos <> [] /\
  strip (Produto.nome morangos) = Produto.nome morangos /\
  no_comma (Produto.nome morangos) /\
  type_known (Produto.tipo morangos) = true /\
  0 <= Produto.quantidade morangos /\ dec_ge_zero (Produto.preco morangos).
Proof.
  apply (from_csv_product_invariant (lit " 40001, morangos ,frl,1_00,1.5")).
  reflexivity.
Defined.

Lemma from_csv_reparse_witness :
  Produto.from_csv (Produto.string morangos) = Ok morangos.
Proof.
  apply (from_csv_reparse (lit " 40001, morangos ,frl,1_00,1.5") morangos).
  reflexivity.
Defined.

Lemma append_then_lookup_witness :
  exists c',
    append arroz (snd (append morangos init)) = (Ok tt, c') /\
    pesquisa_por_id (Produto.id arroz) c' = Some arroz /\
    (forall k, k <> Produto.id arroz ->
       pesquisa_por_id k c' = pesquisa_por_id k (snd (append morangos init))) /\
    iter c' = iter (snd (append morangos init)) ++ [arroz] /\
    list_ c' = list_ (snd (append morangos init)).
Proof.
  apply (append_then_lookup (snd (append morangos init)) arroz). reflexivity.
Defined.

Lemma append_eliminar_cancel_witness :
  eliminar (Produto.id arroz)
    (snd (append arroz (snd (append morangos init))))
  = (Ok tt, snd (append morangos init)).
Proof.
  apply (append_eliminar_cancel (snd (append morangos init)) arroz).
  reflexivity.
Defined.

Lemma pesquisa_of_pesquisa_witness :
  exists r r2,
    pesquisa (fun p => Produto.quantidade p <? 10) catalogo = (Ok r, catalogo) /\
    pesquisa (fun p => str_eqb (Produto.tipo p) (lit "AL")) r = (Ok r2, r) /\
    pesquisa (fun p => (Produto.quantidade p <? 10)
                       && str_eqb (Produto.tipo p) (lit "AL")) catalogo
    = (Ok r2, catalogo).
Proof.
  apply (pesquisa_of_pesquisa (fun p => Produto.quantidade p <? 10)
           (fun p => str_eqb (Produto.tipo p) (lit "AL")) catalogo).
  exact catalogo_well_keyed.
Defined.

Lemma ficheiro_exemplo_lines :
  filter relevante (file_lines ficheiro_exemplo)
  = [lit "40001,morangos,FRL,100,1.5" ++ [newline];
     lit " 40002, arroz ,al,7,0.99"].
Proof. vm_compute. reflexivity. Qed.

Lemma le_produtos_loads_witness :
  le_produtos ficheiro_exemplo init
  = (Ok tt, mk (_prods init ++ entries [morangos; arroz]) (list_ init)).
Proof.
  apply (le_produtos_loads ficheiro_exemplo [morangos; arroz] init).
  - rewrite ficheiro_exemplo_lines. repeat constructor.
  - repeat constructor; simpl; intuition discriminate.
  - intros p _. reflexivity.
Defined.

Lemma ficheiro_estragado_lines :
  filter relevante (file_lines ficheiro_estragado)
  = [lit "40001,morangos,FRL,100,1.5" ++ [newline]]
    ++ (lit "40003,peras,FRL,muitas,2" ++ [newline])
    :: [lit "40002,arroz,AL,7,0.99"].
Proof. vm_compute. reflexivity. Qed.

Lemma le_produtos_stops_witness :
  le_produtos ficheiro_estragado init
  = (Raise ValueError, mk (_prods init ++ entries [morangos]) (list_ init)).
Proof.
  apply (le_produtos_stops ficheiro_estragado
           [lit "40001,morangos,FRL,100,1.5" ++ [newline]]
           (lit "40003,peras,FRL,muitas,2" ++ [newline])
           [lit "40002,arroz,AL,7,0.99"] [morangos] init ValueError).
  - exact ficheiro_estragado_lines.
  - repeat constructor.
  - repeat constructor. simpl. tauto.
  - intros p _. reflexivity.
  - left. reflexivity.
Defined.

Lemma guardar_then_le_produtos_witness :
  le_produtos (fst (exec_guardar [cr; newline] catalogo)) init
  = (Ok tt, catalogo).
Proof.
  apply (guardar_then_le_produtos [cr; newline] catalogo).
  - right. reflexivity.
  - exact catalogo_well_keyed.
  - reflexivity.
  - exact catalogo_storable.
Defined.

Lemma second_guardar_spoils_file_witness :
  le_produtos
    (fst (exec_guardar [newline]
            (snd (snd (exec_guardar [newline] catalogo))))) init
  = (Raise (DuplicateValue (Produto.id morangos)), catalogo).
Proof.
  apply (second_guardar_spoils_file [newline] catalogo morangos [arroz]).
  - left. reflexivity.
  - exact catalogo_well_keyed.
  - reflexivity.
  - exact catalogo_storable.
  - reflexivity.
Defined.

Lemma exec_adicionar_reads_fields_witness :
  Produto.from_csv
    (new_prod_csv (lit "40001", lit "morangos", lit "frl", lit "100", lit "1.5"))
  = produto_dos_campos (lit "40001") (lit "morangos") (lit "frl") (lit "100")
      (virgula_decimal (lit "1,5")).
Proof.
  apply (exec_adicionar_reads_fields (lit "40001") (lit "morangos")
           (lit "frl") (lit "100") (lit "1,5")).
  - reflexivity.
  - repeat constructor.
  - repeat constructor.
  - repeat constructor.
  - repeat constructor.
  - vm_compute. lia.
Defined.

Lemma exec_adicionar_cuts_price_witness :
  Produto.from_csv
    (new_prod_csv (lit "40001", lit "morangos", lit "frl", lit "100", lit "1,5,0"))
  = produto_dos_campos (lit "40001") (lit "morangos") (lit "frl") (lit "100")
      (lit "1").
Proof.
  apply (exec_adicionar_cuts_price (lit "40001") (lit "morangos") (lit "frl")
           (lit "100") (lit "1") (lit "5,0")).
  - reflexivity.
  - repeat constructor.
  - repeat constructor.
  - repeat constructor.
  - repeat constructor.
  - repeat constructor.
  - reflexivity.
Defined.

Lemma exec_eliminar_outcomes_witness :
  exists m c',
    exec_eliminar (lit " 40001 ") catalogo
    = (Ok tt, map Mostra_produto (iter catalogo) ++ [m], c') /\
    pesquisa_por_id 40001 c' = None /\
    (forall k', k' <> 40001 ->
       pesquisa_por_id k' c' = pesquisa_por_id k' catalogo) /\
    ((m = Produto_eliminado 40001 /\ pesquisa_por_id 40001 catalogo <> None) \/
     (m = Mostra_erro (FileNotFound 40001) /\ c' = catalogo)).
Proof.
  exact (exec_eliminar_outcomes (lit " 40001 ") catalogo
           (proj1 catalogo_well_keyed)).
Defined.

Lemma commands_keep_ids_unique_witness :
  (forall conteudo, well_keyed (snd (le_produtos conteudo catalogo))) /\
  (forall n1 n2 n3 n4 n5,
     well_keyed (snd (exec_adicionar n1 n2 n3 n4 n5 catalogo))) /\
  (forall entrada, well_keyed (snd (exec_eliminar entrada catalogo))) /\
  (forall entrada, snd (exec_pesquisar entrada catalogo) = catalogo) /\
  snd (exec_listar catalogo) = catalogo /\
  (forall linesep, well_keyed (snd (snd (exec_guardar linesep catalogo)))).
Proof. exact (commands_keep_ids_unique catalogo catalogo_well_keyed). Defined.
